(** * raycast-rbx-docs: the fetch/cache pipeline and the search ranker

    A shallow embedding of [src/data-fetcher.ts] (class
    [RobloxDocsDataFetcher]) and of the [filteredDocs] ranker of
    [src/creator-docs.tsx], with the properties of the documentation index
    proved or refuted on it.

    Conventions of the embedding:
    - a JavaScript string is a [string] (a sequence of 8-bit characters);
      [toLowerCase] acts on the letters A-Z, so the model covers ASCII text;
    - [undefined]/[null] are [None]; the JavaScript truthiness of an optional
      string ([x || y], [!x]) is written out with [truthy] and [or_else];
    - the external collaborators (HTTP client, ZIP reader, YAML parser,
      JSON serialisation, the Raycast [Cache]) are data of the model: what
      they answer is part of the [World] or of the archive given to the
      code;
    - a value read out of a parsed YAML document has the type the code
      casts it to ([as string], [as YAMLDocData]): a title, a name, a
      summary or a description is a string or is absent. A document that
      holds another truthy value there (a number, a list) is outside the
      model: on it the conversion to Records throws;
    - asynchronous methods are state-passing functions over the [World]
      that either return or throw. *)

From Stdlib Require Import ZArith Ascii List Lia Bool Sorted.
From stdpp Require Import base gmap strings list.

Local Open Scope Z_scope.

(** ** JavaScript string operations *)

Module Js.

Definition in_range (lo hi : N) (c : ascii) : bool :=
  let n := N_of_ascii c in ((lo <=? n) && (n <=? hi))%N.

Definition is_upper (c : ascii) : bool := in_range 65 90 c.
Definition is_lower (c : ascii) : bool := in_range 97 122 c.
Definition is_digit (c : ascii) : bool := in_range 48 57 c.

(** The character class [[a-z0-9]]. *)
Definition is_lower_alnum (c : ascii) : bool := is_lower c || is_digit c.
(** The character class [[a-z0-9]] under the [i] flag. *)
Definition is_alnum (c : ascii) : bool := is_lower c || is_upper c || is_digit c.
(** The character class [\w]; [\W] is its complement. *)
Definition is_word (c : ascii) : bool :=
  is_alnum c || Ascii.eqb c "_"%char.

Definition lower_char (c : ascii) : ascii :=
  if is_upper c then ascii_of_N (N_of_ascii c + 32) else c.

Fixpoint map_chars (f : ascii → ascii) (s : string) : string :=
  match s with
  | EmptyString => EmptyString
  | String c s' => String (f c) (map_chars f s')
  end.

(** [s.toLowerCase()] *)
Definition toLowerCase (s : string) : string := map_chars lower_char s.

(** [s.replace(/[cls]/g, r)] for a one-character replacement [r]. *)
Definition replace_class (cls : ascii → bool) (r : ascii) (s : string) : string :=
  map_chars (fun c => if cls c then r else c) s.

(** [s.startsWith(p)] *)
Fixpoint startsWith (s p : string) : bool :=
  match p, s with
  | EmptyString, _ => true
  | String _ _, EmptyString => false
  | String a p', String b s' => Ascii.eqb a b && startsWith s' p'
  end.

(** [s.includes(t)] *)
Fixpoint includes (s t : string) : bool :=
  startsWith s t ||
  match s with
  | EmptyString => false
  | String _ s' => includes s' t
  end.

(** [s.indexOf(t)]; [None] stands for -1. *)
Fixpoint indexOf (s t : string) : option nat :=
  if startsWith s t then Some 0%nat
  else match s with
       | EmptyString => None
       | String _ s' => S <$> indexOf s' t
       end.

Fixpoint drop (n : nat) (s : string) : string :=
  match n, s with
  | O, _ => s
  | S _, EmptyString => EmptyString
  | S n', String _ s' => drop n' s'
  end.

Fixpoint take (n : nat) (s : string) : string :=
  match n, s with
  | O, _ => EmptyString
  | S _, EmptyString => EmptyString
  | S n', String c s' => String c (take n' s')
  end.

(** [s.substring(i)] where [i] is the result of an [indexOf]:
    [substring(-1)] is [substring(0)]. *)
Definition substring_from (i : option nat) (s : string) : string :=
  match i with
  | Some n => drop n s
  | None => s
  end.

(** [s.endsWith(suf)] *)
Definition endsWith (s suf : string) : bool :=
  (String.length suf <=? String.length s)%nat &&
  String.eqb (drop (String.length s - String.length suf) s) suf.

(** [s.replace(/^p/, "")] for a literal [p]. *)
Definition strip_prefix (p s : string) : string :=
  if startsWith s p then drop (String.length p) s else s.

(** [s.replace(/suf$/, "")] for a literal [suf]. *)
Definition strip_suffix (suf s : string) : string :=
  if endsWith s suf then take (String.length s - String.length suf) s else s.

(** [s.replace(/\.(md|yaml)$/, "")]: one replacement, of the extension
    the string ends with. *)
Definition strip_extension (s : string) : string :=
  if endsWith s ".md" then strip_suffix ".md" s
  else strip_suffix ".yaml" s.

(** [s.slice(0, -1)] *)
Definition drop_last (s : string) : string := take (String.length s - 1) s.

(** [s.split(sep)] for a separator that is one character of the class
    [sep]: every separator character ends a segment, so the result is
    never empty and has one segment more than there are separators. *)
Fixpoint split_go (sep : ascii → bool) (cur : string) (s : string) : list string :=
  match s with
  | EmptyString => [String.rev cur]
  | String c s' =>
      if sep c then String.rev cur :: split_go sep EmptyString s'
      else split_go sep (String c cur) s'
  end.

Definition split (sep : ascii → bool) (s : string) : list string :=
  split_go sep EmptyString s.

(** [s.split(/[cls]+/)]: a maximal run of separator characters is one
    separator. *)
Fixpoint split_runs_go (sep : ascii → bool) (in_run : bool) (cur : string)
    (s : string) : list string :=
  match s with
  | EmptyString => [String.rev cur]
  | String c s' =>
      if sep c then
        if in_run then split_runs_go sep true cur s'
        else String.rev cur :: split_runs_go sep true EmptyString s'
      else split_runs_go sep false (String c cur) s'
  end.

Definition split_runs (sep : ascii → bool) (s : string) : list string :=
  split_runs_go sep false EmptyString s.

Definition is_char (a : ascii) (c : ascii) : bool := Ascii.eqb a c.

(** [xs.pop()] on a fresh array: the last element, if any. *)
Definition pop (xs : list string) : option string := last xs.

(** Truthiness of an optional string: [undefined] and [""] are falsy. *)
Definition truthy (o : option string) : bool :=
  match o with
  | Some s => negb (String.eqb s "")
  | None => false
  end.

(** [o || d] for an optional string [o] and a string [d]. *)
Definition or_else (o : option string) (d : string) : string :=
  match o with
  | Some s => if String.eqb s "" then d else s
  | None => d
  end.

End Js.

(** ** The Record model and the Extractor ([src/data-fetcher.ts]) *)

Module DataFetcher.

(** The closed enumeration of [DocItem["type"]]. *)
Inductive DocType :=
| TClass | TService | TTutorial | TGuide | TReference | TEnum | TGlobal
| TProperty | TMethod | TEvent | TCallback | TFunction.

(** The string a [DocType] is at run time. *)
Definition type_string (t : DocType) : string :=
  match t with
  | TClass => "class" | TService => "service" | TTutorial => "tutorial"
  | TGuide => "guide" | TReference => "reference" | TEnum => "enum"
  | TGlobal => "global" | TProperty => "property" | TMethod => "method"
  | TEvent => "event" | TCallback => "callback" | TFunction => "function"
  end.

Record DocItem := {
  id : string;
  title : string;
  description : string;
  url : string;
  category : string;
  keywords : list string;
  type : DocType
}.

Definition ENGINE_REF_ITEMS : list string :=
  ["properties"; "methods"; "events"; "callbacks"; "items"; "functions"].

Definition SUBITEM_TYPE_MAP : gmap string DocType :=
  list_to_map [("properties", TProperty); ("methods", TMethod);
               ("events", TEvent); ("callbacks", TCallback);
               ("functions", TFunction)].

Definition cleanPath (path : string) : string :=
  Js.strip_extension (Js.strip_prefix "content/en-us/" path).

(** One sub-entry of a definition document, with the types the code
    declares for it: [{ name: string; summary?: string; tags?: string[] }]
    (a [tags] that is not an array is absent). *)
Record YamlItem := {
  name : string;
  summary : option string;
  tags : option (list string)
}.

Definition isDeprecated (item : YamlItem) : bool :=
  match tags item with
  | Some ts => bool_decide ("Deprecated" ∈ ts)
  | None => false
  end.

Record SubitemData := {
  s_type : string;
  s_title : string;
  s_description : option string
}.

Record FileMetadata := {
  m_title : option string;
  m_description : option string;
  m_path : string;
  m_type : string;
  m_subitems : option (list SubitemData)
}.

(** [YAMLDocData]: the three scalar fields, with the declared type
    [string], and the array-valued fields reached as [data[key]], kept as a
    map from the key to the array (a key whose value is not an array is
    absent from it). *)
Record YAMLDocData := {
  y_name : option string;
  y_type : option string;
  y_summary : option string;
  y_members : gmap string (list YamlItem)
}.

(** The header block of a prose document, once parsed: the two fields
    that [parseMarkdownFile] reads, at the type it casts them to
    ([metadata.title as string], [metadata.description as string]). *)
Record FrontMatter := {
  fm_title : option string;
  fm_description : option string
}.

(** What [yamlLoad] answers: it throws, it yields no value, or it yields
    a document. *)
Inductive YamlLoad (A : Type) :=
| YamlThrows
| YamlEmpty
| YamlDoc (doc : A).
Arguments YamlThrows {A}.
Arguments YamlEmpty {A}.
Arguments YamlDoc {A} doc.

(** The text of a file, seen through the two parsers the code applies to
    it: [frontmatter] is [None] when the text has no leading
    [---]-delimited block, and otherwise what [yamlLoad] answers on the
    block; [yaml] is what [yamlLoad] answers on the whole text. *)
Record FileText := {
  frontmatter : option (YamlLoad FrontMatter);
  yaml : YamlLoad YAMLDocData
}.

Definition push {A} (xs : list A) (x : A) : list A := xs ++ [x].

Definition truncateDescription (description : option string) : string :=
  match description with
  | None => ""
  | Some d =>
      if String.eqb d "" then ""
      else
        let maxLength := 200%nat in
        if (maxLength <? String.length d)%nat
        then Js.take maxLength d +:+ "..."
        else d
  end.

Definition extractTitleFromPath (filePath : string) : string :=
  let fileName := Js.or_else (Js.pop (Js.split (Js.is_char "/") filePath)) "" in
  Js.replace_class (fun c => Js.is_char "-" c || Js.is_char "_" c) " "
    (Js.strip_extension fileName).

Definition getCategoryFromPath (path : string) : string :=
  if Js.includes path "/reference/engine/classes/" then "Classes"
  else if Js.includes path "/reference/engine/enums/" then "Enums"
  else if Js.includes path "/reference/engine/globals/" then "Globals"
  else if Js.includes path "/tutorials/" then "Tutorials"
  else if Js.includes path "/scripting/" then "Scripting"
  else if Js.includes path "/art/" then "Art"
  else if Js.includes path "/physics/" then "Physics"
  else if Js.includes path "/ui/" then "UI"
  else if Js.includes path "/sound/" then "Sound"
  else if Js.includes path "/animation/" then "Animation"
  else if Js.includes path "/lighting/" then "Lighting"
  else "Documentation".

Definition getTypeFromMetadata (metadata : FileMetadata) : DocType :=
  if String.eqb (m_type metadata) "class" then TClass
  else if String.eqb (m_type metadata) "service" then TService
  else if String.eqb (m_type metadata) "enum" then TEnum
  else if String.eqb (m_type metadata) "global" then TGlobal
  else if Js.includes (m_path metadata) "/tutorials/" then TTutorial
  else if Js.includes (m_path metadata) "/reference/" then TReference
  else TGuide.

(** [new Set<string>().add(word)] followed by [Array.from]: insertion
    order, first occurrence kept. *)
Definition set_add (keywords : list string) (word : string) : list string :=
  if bool_decide (word ∈ keywords) then keywords else push keywords word.

Definition add_long (keywords : list string) (word : string) : list string :=
  if (2 <? String.length word)%nat then set_add keywords word else keywords.

Definition generateKeywords (title description path : string) : list string :=
  let non_word := fun c => negb (Js.is_word c) in
  let keywords := [] in
  let keywords :=
    fold_left add_long (Js.split_runs non_word (Js.toLowerCase title)) keywords in
  let keywords :=
    fold_left add_long (Js.split_runs non_word (Js.toLowerCase description)) keywords in
  let pathParts := Js.split (Js.is_char "/") (Js.toLowerCase path) in
  let keywords := fold_left add_long pathParts keywords in
  firstn 10 keywords.

Definition generateIdFromPath (path : string) : string :=
  Js.toLowerCase
    (Js.replace_class (fun c => negb (Js.is_alnum c)) "-" (cleanPath path)).

Definition pathToUrl (path : string) : string :=
  "https://create.roblox.com/docs/" +:+ cleanPath path.

Definition metadataToDocItem (metadata : FileMetadata) : option DocItem :=
  match m_title metadata with
  | None => None
  | Some metadata_title =>
      if String.eqb metadata_title "" then None
      else
        let category := getCategoryFromPath (m_path metadata) in
        let type := getTypeFromMetadata metadata in
        let url := pathToUrl (m_path metadata) in
        Some {| id := generateIdFromPath (m_path metadata);
                title := metadata_title;
                description := Js.or_else (m_description metadata) "";
                url := url;
                category := category;
                keywords :=
                  generateKeywords metadata_title
                    (Js.or_else (m_description metadata) "") (m_path metadata);
                type := type |}
  end.

(** The text a template literal prints for an optional string. *)
Definition interpolate (o : option string) : string :=
  match o with
  | Some s => s
  | None => "undefined"
  end.

Definition subitemToDocItem (subitem : SubitemData) (parentMetadata : FileMetadata)
    : option DocItem :=
  if String.eqb (s_title subitem) "" then None
  else
    let category := getCategoryFromPath (m_path parentMetadata) in
    let baseUrl := pathToUrl (m_path parentMetadata) in
    let anchorName :=
      if Js.includes (s_title subitem) ":" then
        Js.or_else (Js.pop (Js.split (Js.is_char ":") (s_title subitem)))
          (s_title subitem)
      else if Js.includes (s_title subitem) "." then
        Js.or_else (Js.pop (Js.split (Js.is_char ".") (s_title subitem)))
          (s_title subitem)
      else s_title subitem in
    let url := baseUrl +:+ "#" +:+ anchorName in
    let itemType := default TReference (SUBITEM_TYPE_MAP !! s_type subitem) in
    Some {| id :=
              generateIdFromPath (m_path parentMetadata) +:+ "-" +:+
              Js.replace_class (fun c => negb (Js.is_lower_alnum c)) "-"
                (Js.toLowerCase (s_title subitem));
            title := s_title subitem;
            description :=
              Js.or_else (s_description subitem)
                (Js.drop_last (s_type subitem) +:+ " of " +:+
                 interpolate (m_title parentMetadata));
            url := url;
            category := category;
            keywords :=
              generateKeywords (s_title subitem)
                (Js.or_else (s_description subitem) "")
                (m_path parentMetadata);
            type := itemType |}.

(** The fallback of [parseMarkdownFile]: a Record derived from the path
    alone. *)
Definition pathOnlyMetadata (filePath url : string) : FileMetadata :=
  {| m_title := Some (extractTitleFromPath filePath);
     m_description := None;
     m_path := url;
     m_type := "article";
     m_subitems := None |}.

Definition parseMarkdownFile (filePath url : string)
    (content : option (YamlLoad FrontMatter)) : option FileMetadata :=
  match content with
  | None => Some (pathOnlyMetadata filePath url)
  | Some YamlThrows => Some (pathOnlyMetadata filePath url)
  | Some YamlEmpty =>
      (* reading [metadata.title] of no value throws; the handler answers *)
      Some (pathOnlyMetadata filePath url)
  | Some (YamlDoc metadata) =>
      Some {| m_title :=
                Some (Js.or_else (fm_title metadata) (extractTitleFromPath filePath));
              m_description := Some (truncateDescription (fm_description metadata));
              m_path := url;
              m_type := "article";
              m_subitems := None |}
  end.

(** The title given to the sub-entry named [itemName] of the document
    [data]. *)
Definition subitemTitle (data : YAMLDocData) (itemName : string) : string :=
  if bool_decide (y_type data = Some "enum")
  then interpolate (y_name data) +:+ "." +:+ itemName
  else itemName.

(** The object pushed on [metadata.subitems] for [item]. *)
Definition subitemOf (data : YAMLDocData) (key : string) (item : YamlItem)
    : SubitemData :=
  {| s_type := key;
     s_title := subitemTitle data (name item);
     s_description := Some (truncateDescription (summary item)) |}.

(** The body of [for (const item of items)]. *)
Definition visitItem (data : YAMLDocData) (key : string)
    (subitems : list SubitemData) (item : YamlItem) : list SubitemData :=
  if isDeprecated item then subitems
  else push subitems (subitemOf data key item).

(** The body of [for (const key of ENGINE_REF_ITEMS)]. *)
Definition visitKey (data : YAMLDocData) (subitems : list SubitemData)
    (key : string) : list SubitemData :=
  match y_members data !! key with
  | Some keyData =>
      let items := firstn 50 keyData in
      fold_left (visitItem data key) items subitems
  | None => subitems
  end.

Definition parseYamlFile (filePath url : string)
    (content : YamlLoad YAMLDocData) : option FileMetadata :=
  match content with
  | YamlThrows => None
  | YamlEmpty => None
  | YamlDoc data =>
      if negb (Js.truthy (y_name data)) then None
      else
        Some {| m_title := y_name data;
                m_type := Js.or_else (y_type data) "class";
                m_path := url;
                m_description := Some (truncateDescription (y_summary data));
                m_subitems := Some (fold_left (visitKey data) ENGINE_REF_ITEMS []) |}
  end.

(** *** The Archive Processor *)

(** One entry of the archive as [zip.forEach] presents it: its path, the
    directory flag, and what [file.async("text")] resolves to ([None] when
    it rejects). *)
Record ZipObject := {
  relativePath : string;
  dir : bool;
  async_text : option FileText
}.

(** The downloaded bytes, as [JSZip.loadAsync] sees them. *)
Inductive Buffer :=
| NotAnArchive
| Archive (files : list ZipObject).

Definition BATCH_SIZE : nat := 25.

Definition isRelevant (file : ZipObject) : bool :=
  Js.includes (relativePath file) "content/en-us/" &&
  (Js.endsWith (relativePath file) ".md" || Js.endsWith (relativePath file) ".yaml") &&
  negb (dir file).

(** The callback of [batch.map]: one file to its metadata, [None] for
    [null]; a rejected read is caught and gives [null]. *)
Definition processFile (file : ZipObject) : option FileMetadata :=
  let path := relativePath file in
  match async_text file with
  | None => None
  | Some content =>
      let url := Js.substring_from (Js.indexOf path "content/en-us/") path in
      if Js.endsWith path ".md" then parseMarkdownFile path url (frontmatter content)
      else if Js.endsWith path ".yaml" then parseYamlFile path url (yaml content)
      else None
  end.

(** The body of [for (const subitem of metadata.subitems)]. *)
Definition addSubitem (metadata : FileMetadata) (docItems : list DocItem)
    (subitem : SubitemData) : list DocItem :=
  match subitemToDocItem subitem metadata with
  | Some subDocItem => push docItems subDocItem
  | None => docItems
  end.

(** The body of [for (const metadata of validMetadata)]. *)
Definition addMetadata (docItems : list DocItem) (metadata : FileMetadata)
    : list DocItem :=
  match metadataToDocItem metadata with
  | Some docItem =>
      let docItems := push docItems docItem in
      match m_subitems metadata with
      | Some subitems => fold_left (addSubitem metadata) subitems docItems
      | None => docItems
      end
  | None => docItems
  end.

(** [xs.slice(i, j)] for [0 <= i <= j]. *)
Definition slice {A} (i j : nat) (xs : list A) : list A :=
  firstn (j - i) (skipn i xs).

(** The loop [for (let i = 0; i < relevantFiles.length; i += BATCH_SIZE)],
    started at index [i]; [fuel] bounds the number of iterations. *)
Fixpoint batchLoop (fuel : nat) (relevantFiles : list ZipObject) (i : nat)
    (docItems : list DocItem) : list DocItem :=
  match fuel with
  | O => docItems
  | S fuel' =>
      if (i <? length relevantFiles)%nat then
        let batch := slice i (i + BATCH_SIZE) relevantFiles in
        let batchResults := map processFile batch in
        let validMetadata := omap (fun m => m) batchResults in
        let docItems := fold_left addMetadata validMetadata docItems in
        batchLoop fuel' relevantFiles (i + BATCH_SIZE)%nat docItems
      else docItems
  end.

(** The Records of an opened archive. Every iteration advances by
    [BATCH_SIZE], so [length relevantFiles] iterations are enough. *)
Definition processFiles (files : list ZipObject) : list DocItem :=
  let relevantFiles := filter (fun file => isRelevant file = true) files in
  batchLoop (length relevantFiles) relevantFiles 0 [].

(** *** The world of the fetcher: cache, clock and network *)

(** The persisted Cache Entry [{ data, timestamp, sha }]. *)
Record CacheEntry := {
  data : list DocItem;
  sha : option string;
  timestamp : Z
}.

(** A text held by the Raycast [Cache]: the [JSON.stringify] of a Cache
    Entry, the decimal text of an integer, or any other text, one that
    [JSON.parse] rejects and that [parseInt] reads as [NaN]. These are the
    texts that the class writes ([Serialized], [Decimal]) and a damaged
    one; a text that parses to some other JSON value (an object without
    [data], a string) is not represented. *)
Inductive Stored :=
| Serialized (entry : CacheEntry)
| Decimal (n : Z)
| Corrupt (text : string).

(** What [JSON.parse] yields on a stored text that it accepts. *)
Inductive Json :=
| JEntry (entry : CacheEntry)
| JNumber (n : Z).

(** What a [fetch] comes to: it rejects (network failure or abort on
    timeout), it answers with a non-success status, or it answers with a
    body. *)
Inductive Fetched (A : Type) :=
| Aborted
| NotOk (statusText : string)
| Ok (body : A).
Arguments Aborted {A}.
Arguments NotOk {A} statusText.
Arguments Ok {A} body.

Record World := {
  (** [Date.now()], in milliseconds *)
  now : Z;
  (** the Raycast [Cache] *)
  cache : gmap string Stored;
  (** the reply of the commits endpoint: the [sha] field of its JSON body,
      [None] when the body does not parse or has no such field *)
  commits_main : Fetched (option string);
  (** the reply to the download of the archive *)
  archive_main : Fetched Buffer;
  (** the detached update checks started so far, each with the [cachedSha]
      it was given *)
  background : list (option string);
  (** the version of the running extension; no code of the fetcher reads it *)
  extensionVersion : string
}.

Definition set_cache (f : gmap string Stored → gmap string Stored) (w : World) : World :=
  {| now := now w; cache := f (cache w); commits_main := commits_main w;
     archive_main := archive_main w; background := background w;
     extensionVersion := extensionVersion w |}.

Definition set_background (f : list (option string) → list (option string))
    (w : World) : World :=
  {| now := now w; cache := cache w; commits_main := commits_main w;
     archive_main := archive_main w; background := f (background w);
     extensionVersion := extensionVersion w |}.

Definition set_extensionVersion (v : string) (w : World) : World :=
  {| now := now w; cache := cache w; commits_main := commits_main w;
     archive_main := archive_main w; background := background w;
     extensionVersion := v |}.

Inductive Failure :=
| FetchError              (* the request was aborted or the network failed *)
| DownloadError (statusText : string)
| ZipError                (* the bytes are not an archive *)
| SyntaxError             (* [JSON.parse] rejects the text *)
| TypeError.              (* a property of a non-object is read *)

Inductive Outcome (A : Type) :=
| Returned (a : A)
| Thrown (e : Failure).
Arguments Returned {A} a.
Arguments Thrown {A} e.

(** A method of the class: it runs on a world, returns or throws, and
    leaves a world. *)
Definition Async (A : Type) : Type := World → Outcome A * World.

Definition ret {A} (a : A) : Async A := fun w => (Returned a, w).
Definition throw {A} (e : Failure) : Async A := fun w => (Thrown e, w).
Definition bind {A B} (m : Async A) (k : A → Async B) : Async B :=
  fun w =>
    match m w with
    | (Returned a, w') => k a w'
    | (Thrown e, w') => (Thrown e, w')
    end.
(** [try { m } catch (error) { handler }] *)
Definition try_catch {A} (m : Async A) (handler : Failure → Async A) : Async A :=
  fun w =>
    match m w with
    | (Returned a, w') => (Returned a, w')
    | (Thrown e, w') => handler e w'
    end.
Definition read {A} (f : World → A) : Async A := fun w => (Returned (f w), w).
Definition update (f : World → World) : Async unit := fun w => (Returned tt, f w).

#[global] Instance Async_ret : MRet Async := @ret.
#[global] Instance Async_bind : MBind Async := fun A B k m => bind m k.

Definition cacheKey : string := "roblox-docs-data".
Definition cacheExpiry : Z := 24 * 60 * 60 * 1000.
Definition lastUpdateCheckKey : string := "roblox-docs-last-update-check".
Definition updateCheckInterval : Z := 60 * 60 * 1000.

(** [this.cache.get(key)] *)
Definition cache_get (key : string) : Async (option Stored) :=
  read (fun w => cache w !! key).
(** [this.cache.set(key, value)] *)
Definition cache_set (key : string) (value : Stored) : Async unit :=
  update (set_cache (insert key value)).
(** [this.cache.remove(key)] *)
Definition cache_remove (key : string) : Async unit :=
  update (set_cache (delete key)).
(** [Date.now()] *)
Definition Date_now : Async Z := read now.

(** Truthiness of a stored text: only the empty text is falsy. *)
Definition nonempty (v : Stored) : bool :=
  match v with
  | Corrupt text => negb (String.eqb text "")
  | _ => true
  end.

(** [JSON.parse(text)] *)
Definition JSON_parse (v : Stored) : Async Json :=
  match v with
  | Serialized entry => ret (JEntry entry)
  | Decimal n => ret (JNumber n)
  | Corrupt _ => throw SyntaxError
  end.

(** [parseInt(text, 10)]; [None] is [NaN]. *)
Definition parseInt (v : Stored) : option Z :=
  match v with
  | Decimal n => Some n
  | _ => None
  end.

Definition clearCache : Async unit := cache_remove cacheKey.

Definition getLatestCommitSha : Async (option string) :=
  try_catch
    (response ← read commits_main;
     match response with
     | Aborted => throw FetchError
     | NotOk _ => ret None
     | Ok data_sha => ret data_sha
     end)
    (fun _ => ret None).

Definition getCachedData : Async (option Json) :=
  cachedData ← cache_get cacheKey;
  match cachedData with
  | None => ret None
  | Some text =>
      if negb (nonempty text) then ret None
      else
        try_catch
          (parsed ← JSON_parse text;
           now ← Date_now;
           match parsed with
           | JEntry entry =>
               if cacheExpiry <? now - timestamp entry then ret None
               else ret (Some parsed)
           | JNumber _ =>
               (* [parsed.timestamp] is [undefined]: the comparison with
                  [NaN] is false *)
               ret (Some parsed)
           end)
          (fun _ => ret None)
  end.

Definition checkForUpdatesInBackground (cachedSha : option string) : Async unit :=
  lastCheckStr ← cache_get lastUpdateCheckKey;
  now ← Date_now;
  let throttled :=
    match lastCheckStr with
    | Some text =>
        nonempty text &&
        match parseInt text with
        | Some lastCheck => now - lastCheck <? updateCheckInterval
        | None => false
        end
    | None => false
    end in
  if throttled then ret tt
  else
    now' ← Date_now;
    cache_set lastUpdateCheckKey (Decimal now');;
    (* fire and forget: the check is started, its answer changes nothing *)
    update (set_background (fun started => push started cachedSha)).

(** [JSZip.loadAsync] rejects a buffer that is not an archive; the [catch]
    logs the error and throws it again. On an archive that opens, the two
    loops run as [processFiles]; with the YAML values at their declared
    types the conversion loop, which stands outside the per-file
    [try]/[catch], has nothing to throw. *)
Definition processZipArchiveOptimized (zipBuffer : Buffer) : Async (list DocItem) :=
  try_catch
    (match zipBuffer with
     | NotAnArchive => throw ZipError
     | Archive files => ret (processFiles files)
     end)
    (fun error => throw error).

Definition fetchFreshData : Async (list DocItem) :=
  latestSha ← getLatestCommitSha;
  try_catch
    (zipResponse ← read archive_main;
     match zipResponse with
     | Aborted => throw FetchError
     | NotOk statusText => throw (DownloadError statusText)
     | Ok zipBuffer =>
         docItems ← processZipArchiveOptimized zipBuffer;
         now ← Date_now;
         let cacheData := {| data := docItems; timestamp := now; sha := latestSha |} in
         cache_set cacheKey (Serialized cacheData);;
         ret docItems
     end)
    (fun _ => ret []).

Definition fetchDocsData : Async (list DocItem) :=
  cachedData ← getCachedData;
  match cachedData with
  | Some (JEntry entry) =>
      if (0 <? length (data entry))%nat then
        checkForUpdatesInBackground (sha entry);;
        ret (data entry)
      else fetchFreshData
  | Some (JNumber n) =>
      (* a number: [0] is falsy; of any other, [.data] is [undefined] and
         reading its [length] throws *)
      if n =? 0 then fetchFreshData else throw TypeError
  | None => fetchFreshData
  end.

End DataFetcher.

(** ** The Search Ranker ([filteredDocs] of [src/creator-docs.tsx]) *)

Module Ranker.
Import DataFetcher.

Definition MAX_DISPLAYED_RESULTS : nat := 50.

(** One element of [results]: [{ doc, score }]. *)
Record Scored := {
  doc : DocItem;
  score : Z
}.

Fixpoint all_chars (p : ascii → bool) (s : string) : bool :=
  match s with
  | EmptyString => true
  | String c s' => p c && all_chars p s'
  end.

(** [s.trim() === ""] *)
Definition trim_is_empty (s : string) : bool := all_chars Ascii.is_space s.

Definition is_separator (c : ascii) : bool := Js.is_char ":" c || Js.is_char "." c.

(** [titleLower.split(/[:.]/)[1] || titleLower] when the title has a
    separator, and [titleLower] otherwise. *)
Definition titlePart (titleLower : string) : string :=
  if Js.includes titleLower ":" || Js.includes titleLower "."
  then Js.or_else (Js.split is_separator titleLower !! 1%nat) titleLower
  else titleLower.

(** The tier of a Record whose title contains the query. *)
Definition titleMatchScore (searchLower titleLower : string) : Z :=
  if String.eqb titleLower searchLower || String.eqb (titlePart titleLower) searchLower
  then 1000
  else if Js.startsWith titleLower searchLower then 500
  else 250.

(** The body of [for (const doc of allDocs)]: the element pushed on
    [results], or [None] when the Record is skipped. *)
Definition scoreDoc (searchLower : string) (doc : DocItem) : option Scored :=
  let titleLower := Js.toLowerCase (title doc) in
  let titleMatch := Js.includes titleLower searchLower in
  if negb titleMatch then
    let descriptionMatch :=
      Js.includes (Js.toLowerCase (description doc)) searchLower in
    let keywordMatch :=
      existsb (fun keyword => Js.includes (Js.toLowerCase keyword) searchLower)
        (keywords doc) in
    let categoryMatch := Js.includes (Js.toLowerCase (category doc)) searchLower in
    let typeMatch :=
      Js.includes (Js.toLowerCase (type_string (type doc))) searchLower in
    if negb descriptionMatch && negb keywordMatch && negb categoryMatch
       && negb typeMatch
    then None
    else
      let matchScore := if descriptionMatch then 100 else if keywordMatch then 75 else 50 in
      let categoryMultiplier := if String.eqb (category doc) "Classes" then 8 else 1 in
      Some {| doc := doc; score := matchScore * categoryMultiplier |}
  else
    let matchScore := titleMatchScore searchLower titleLower in
    let isClassEntry := String.eqb (category doc) "Classes" in
    let isMainClass :=
      isClassEntry &&
      (String.eqb (type_string (type doc)) "class" ||
       String.eqb (type_string (type doc)) "service") in
    let categoryMultiplier := if isMainClass then 10 else if isClassEntry then 8 else 1 in
    let score := matchScore * categoryMultiplier - Z.of_nat (String.length (title doc)) in
    Some {| doc := doc; score := score |}.

Definition visitDoc (searchLower : string) (results : list Scored) (doc : DocItem)
    : list Scored :=
  match scoreDoc searchLower doc with
  | Some item => push results item
  | None => results
  end.

(** [results.sort((a, b) => b.score - a.score)]: descending score, and
    stable, as [Array.prototype.sort] is. *)
Fixpoint insert_scored (x : Scored) (sorted : list Scored) : list Scored :=
  match sorted with
  | [] => [x]
  | y :: rest =>
      if score y <=? score x then x :: y :: rest
      else y :: insert_scored x rest
  end.

Definition sort_scored (results : list Scored) : list Scored :=
  foldr insert_scored [] results.

(** The scored and sorted matches, before truncation. *)
Definition sortedResults (searchText : string) (allDocs : list DocItem) : list Scored :=
  if (length allDocs =? 0)%nat then []
  else if trim_is_empty searchText then []
  else
    let searchLower := Js.toLowerCase searchText in
    let results := fold_left (visitDoc searchLower) allDocs [] in
    sort_scored results.

(** The ranker with the limit as a parameter:
    [results.sort(..).slice(0, limit).map((item) => item.doc)]. *)
Definition rank (searchText : string) (allDocs : list DocItem) (limit : nat)
    : list DocItem :=
  map doc (firstn limit (sortedResults searchText allDocs)).

(** The ranker without truncation. *)
Definition rankAll (searchText : string) (allDocs : list DocItem) : list DocItem :=
  map doc (sortedResults searchText allDocs).

Definition filteredDocs (searchText : string) (allDocs : list DocItem) : list DocItem :=
  rank searchText allDocs MAX_DISPLAYED_RESULTS.

(** [q] occurs in [field], letter case ignored. *)
Definition contains_ci (field q : string) : bool :=
  Js.includes (Js.toLowerCase field) (Js.toLowerCase q).

End Ranker.

(** ** Vocabulary of the statements *)

Module Extraction.
Import DataFetcher.

(** The sub-entries of [data] under [key] that the extractor looks at
    (the first 50) and keeps (those not deprecated). *)
Definition keptItems (data : YAMLDocData) (key : string) : list YamlItem :=
  match y_members data !! key with
  | Some keyData => filter (fun item => isDeprecated item = false) (take 50 keyData)
  | None => []
  end.

(** All the sub-entries of [data], under any key. *)
Definition allItems (data : YAMLDocData) (key : string) : list YamlItem :=
  default [] (y_members data !! key).

(** The Records that one file's metadata contributes. *)
Definition recordsOf (metadata : FileMetadata) : list DocItem :=
  addMetadata [] metadata.

(** The metadata of the relevant files of an archive, in order. *)
Definition metadataOf (files : list ZipObject) : list FileMetadata :=
  omap processFile (filter (fun file => isRelevant file = true) files).

(** Lower-case, with every character that is not a letter or a digit
    replaced by a dash: what both id computations do to their input. *)
Definition normalise (s : string) : string :=
  Js.map_chars (fun c => if Js.is_alnum c then Js.lower_char c else "-"%char) s.

(** Where a Record comes from: a file, or a sub-entry of a file. *)
Inductive Source :=
| FromFile (path : string)
| FromSubitem (path : string) (title : string).

(** The normalised form of a source. *)
Definition sourceKey (src : Source) : string :=
  match src with
  | FromFile path => normalise (cleanPath path)
  | FromSubitem path title => normalise (cleanPath path) +:+ "-" +:+ normalise title
  end.

(** The sources of the Records of one file's metadata: the file itself
    when it has a title, and then its sub-entries with a title. *)
Definition sourcesOf (metadata : FileMetadata) : list Source :=
  if Js.truthy (m_title metadata) then
    FromFile (m_path metadata) ::
    map (fun subitem => FromSubitem (m_path metadata) (s_title subitem))
      (filter (fun subitem => s_title subitem ≠ "")
         (default [] (m_subitems metadata)))
  else [].

End Extraction.

(** ** Sample inputs *)

Module Samples.
Import DataFetcher.

(** The Record of a method. *)
Definition fireRecord : DocItem :=
  {| id := "reference-engine-classes-bindableevent-bindableevent-fire";
     title := "BindableEvent:Fire";
     description := "Fires the event";
     url := "https://create.roblox.com/docs/reference/engine/classes/BindableEvent#Fire";
     category := "Classes";
     keywords := ["bindableevent"; "fire"];
     type := TMethod |}.

(** A class with a property whose name carries no owner prefix and a
    deprecated method. *)
Definition partDoc : YAMLDocData :=
  {| y_name := Some "Part";
     y_type := Some "class";
     y_summary := Some "A physical brick";
     y_members :=
       {[ "properties" :=
            [ {| name := "Anchored";
                 summary := Some "Whether physics moves the part";
                 tags := None |} ];
          "methods" :=
            [ {| name := "Part:breakJoints";
                 summary := Some "Breaks the joints of the part";
                 tags := Some ["Deprecated"] |} ] ]} |}.

Definition partText : FileText :=
  {| frontmatter := None; yaml := YamlDoc partDoc |}.

Definition partPath : string :=
  "creator-docs-main/content/en-us/reference/engine/classes/Part.yaml".
Definition partUrl : string := "content/en-us/reference/engine/classes/Part.yaml".

(** [c.repeat(n)] *)
Fixpoint repeat_char (c : ascii) (n : nat) : string :=
  match n with
  | O => EmptyString
  | S n' => String c (repeat_char c n')
  end.

(** A definition document whose name has 200 characters, with one
    property that has no summary. *)
Definition longNameDoc : YAMLDocData :=
  {| y_name := Some (repeat_char "A" 200);
     y_type := Some "class";
     y_summary := None;
     y_members :=
       {[ "properties" := [ {| name := "Size"; summary := None; tags := None |} ] ]} |}.

Definition longNameFile : ZipObject :=
  {| relativePath := "creator-docs-main/content/en-us/reference/engine/classes/A.yaml";
     dir := false;
     async_text := Some {| frontmatter := None; yaml := YamlDoc longNameDoc |} |}.

(** Two prose documents, without header block, whose paths differ only
    in a separator. *)
Definition proseText : FileText :=
  {| frontmatter := None; yaml := YamlThrows |}.

Definition textInputFiles : list ZipObject :=
  [ {| relativePath := "creator-docs-main/content/en-us/ui/text-input.md";
       dir := false; async_text := Some proseText |};
    {| relativePath := "creator-docs-main/content/en-us/ui/text/input.md";
       dir := false; async_text := Some proseText |} ].

Definition partFiles : list ZipObject :=
  [ {| relativePath := partPath; dir := false; async_text := Some partText |} ].

(** A first run of release 1.0.0: nothing cached, the network answers. *)
Definition firstRun : World :=
  {| now := 1700000000000;
     cache := ∅;
     commits_main := Ok (Some "4f2a9c1");
     archive_main := Ok (Archive partFiles);
     background := [];
     extensionVersion := "1.0.0" |}.

(** The world that the first run leaves, one hour later, once release
    1.0.1 is installed. *)
Definition afterUpgrade : World :=
  let written := snd (fetchFreshData firstRun) in
  {| now := now written + 60 * 60 * 1000;
     cache := cache written;
     commits_main := commits_main written;
     archive_main := archive_main written;
     background := background written;
     extensionVersion := "1.0.1" |}.

(** An entry written ten minutes ago. *)
Definition recentEntry (records : list DocItem) : CacheEntry :=
  {| data := records; sha := Some "4f2a9c1"; timestamp := 1700000000000 - 600000 |}.

(** A world with a recent entry in the cache, in which the download
    answers with bytes that are not an archive. *)
Definition brokenDownload : World :=
  {| now := 1700000000000;
     cache := {[ cacheKey := Serialized (recentEntry (processFiles partFiles)) ]};
     commits_main := Ok (Some "9b07d3e");
     archive_main := Ok NotAnArchive;
     background := [];
     extensionVersion := "1.0.1" |}.

(** A world with a recent entry that holds no Record. *)
Definition emptyEntryCached : World :=
  {| now := 1700000000000;
     cache := {[ cacheKey := Serialized (recentEntry []) ]};
     commits_main := Ok (Some "4f2a9c1");
     archive_main := Ok (Archive partFiles);
     background := [];
     extensionVersion := "1.0.1" |}.

End Samples.

(** ** Vocabulary of the ranker statements *)

Module Matching.
Import DataFetcher Ranker.

(** The Record matches the query: the query occurs, letter case ignored,
    in one of the five fields the ranker looks at. *)
Definition matchesQuery (q : string) (d : DocItem) : bool :=
  contains_ci (title d) q
  || contains_ci (description d) q
  || existsb (fun keyword => contains_ci keyword q) (keywords d)
  || contains_ci (category d) q
  || contains_ci (type_string (type d)) q.

(** The score the ranker gives to a Record, if it keeps it. *)
Definition scoreOf (q : string) (d : DocItem) : option Z :=
  score <$> scoreDoc (Js.toLowerCase q) d.

(** The weight of a title match: [categoryMultiplier]. *)
Definition titleWeight (d : DocItem) : Z :=
  if String.eqb (category d) "Classes" then
    if String.eqb (type_string (type d)) "class"
       || String.eqb (type_string (type d)) "service"
    then 10 else 8
  else 1.

(** Descending order of the scores. *)
Definition descending (l : list Scored) : Prop :=
  StronglySorted (fun a b => score b ≤ score a) l.

End Matching.

(** ** Vocabulary of the extractor statements *)

Module Shape.
Import DataFetcher.

(** The characters of an id: lower-case letters, digits and the dash. *)
Definition is_id_char (c : ascii) : bool :=
  Js.is_lower c || Js.is_digit c || Js.is_char "-" c.

(** The categories that [getCategoryFromPath] can answer. *)
Definition CATEGORIES : list string :=
  ["Classes"; "Enums"; "Globals"; "Tutorials"; "Scripting"; "Art"; "Physics";
   "UI"; "Sound"; "Animation"; "Lighting"; "Documentation"].

(** The types of the Records of sub-entries. *)
Definition MEMBER_TYPES : list DocType :=
  [TProperty; TMethod; TEvent; TCallback; TFunction; TReference].

(** The types of the Records of prose documents. *)
Definition PROSE_TYPES : list DocType := [TTutorial; TReference; TGuide].

(** A path separator, a dash or an underscore. *)
Definition is_path_punctuation (c : ascii) : bool :=
  Js.is_char "/" c || Js.is_char "-" c || Js.is_char "_" c.

(** What holds of each keyword while the set is built: longer than two
    characters, without upper-case letter. *)
Definition keyword_ok (k : string) : Prop :=
  (2 < String.length k)%nat
  ∧ Ranker.all_chars (fun c => negb (Js.is_upper c)) k = true.

End Shape.

(** ** The command ([src/creator-docs.tsx], outside the ranker) *)

Module Command.
Import DataFetcher.

(** [ICON_MAP], looked up with the keys the code uses: the types and the
    categories of Records. *)
Definition ICON_MAP : gmap string string :=
  list_to_map
    [("method", "../assets/icons/method.svg");
     ("event", "../assets/icons/event.svg");
     ("property", "../assets/icons/property.svg");
     ("function", "../assets/icons/function.svg");
     ("callback", "../assets/icons/callback.svg");
     ("enum", "../assets/icons/enum.svg");
     ("global", "../assets/icons/global.svg");
     ("Classes", "../assets/icons/class.svg");
     ("Enums", "../assets/icons/enum.svg");
     ("Globals", "../assets/icons/global.svg");
     ("Tutorials", "../assets/icons/tutorial.svg");
     ("Scripting", "../assets/icons/script.svg");
     ("UI", "../assets/icons/ui.svg");
     ("Sound", "../assets/icons/audio.svg");
     ("Animation", "../assets/icons/animation.svg");
     ("Lighting", "../assets/icons/light.svg");
     ("Physics", "../assets/icons/physics.svg");
     ("Art", "../assets/icons/camera.svg")].

Definition DEFAULT_ICON : string := "../assets/icons/default.svg".

Definition getIconForCategory (category : string) (type : DocType) : string :=
  Js.or_else (ICON_MAP !! type_string type)
    (Js.or_else (ICON_MAP !! category) DEFAULT_ICON).

(** [getIcon], with the preference [hideIcons] as an argument. *)
Definition getIcon (hideIcons : bool) (name : string) : option string :=
  if hideIcons then None else Some name.

(** The shortening [text.length > 50 ? text.substring(0, 47) + "..." : text]
    of the list view. The first component applies it to the title
    ([displayTitle], with [maxTitleLength] and [maxTitleLength - 3]) and to
    the description after its clean-up ([truncatedDescription]); the second
    component applies it to the description only and shows the title as it
    is. *)
Definition displayText (text : string) : string :=
  let maxTitleLength := 50%nat in
  if (maxTitleLength <? String.length text)%nat
  then Js.take (maxTitleLength - 3) text +:+ "..."
  else text.

(** The toasts of the command. *)
Inductive Toast :=
| LoadingDocs                 (* "Loading Roblox Creator Docs..." *)
| DocsLoaded (found : nat)    (* "Found ${docs.length} documentation pages" *)
| FailedToLoad                (* "Failed to Load Docs" *)
| ClearingCache               (* "Clearing Cache..." *)
| FailedToClear.              (* "Failed to Clear Cache" *)

(** The state of the command that the data functions set: the loaded
    Records, the loading flag and the toasts shown so far. *)
Record View := {
  allDocs : list DocItem;
  isLoading : bool;
  toasts : list Toast
}.

Definition showToast (toast : Toast) (v : View) : View :=
  {| allDocs := allDocs v; isLoading := isLoading v; toasts := push (toasts v) toast |}.
Definition setAllDocs (docs : list DocItem) (v : View) : View :=
  {| allDocs := docs; isLoading := isLoading v; toasts := toasts v |}.
Definition setIsLoading (loading : bool) (v : View) : View :=
  {| allDocs := allDocs v; isLoading := loading; toasts := toasts v |}.

Definition loadDocsData (v : View) (w : World) : View * World :=
  let v := setIsLoading true v in
  let v := showToast LoadingDocs v in
  let '(v, w) :=
    match fetchDocsData w with
    | (Returned docs, w') =>
        let v := setAllDocs docs v in
        (showToast (DocsLoaded (length docs)) v, w')
    | (Thrown _, w') => (showToast FailedToLoad v, w')
    end in
  (setIsLoading false v, w).

Definition clearCacheAndRefresh (v : View) (w : World) : View * World :=
  let v := showToast ClearingCache v in
  match clearCache w with
  | (Returned _, w') => loadDocsData v w'
  | (Thrown _, w') => (showToast FailedToClear v, w')
  end.

End Command.

(** ** More sample inputs *)

Module MoreSamples.
Import DataFetcher.

(** The Record of an event whose title has the title of [fireRecord]'s
    member as a prefix. *)
Definition firedRecord : DocItem :=
  {| id := "reference-engine-classes-bindableevent-bindableevent-fired";
     title := "BindableEvent:Fired";
     description := "Fired when the event is fired";
     url := "https://create.roblox.com/docs/reference/engine/classes/BindableEvent#Fired";
     category := "Classes";
     keywords := ["bindableevent"; "fired"];
     type := TEvent |}.

(** The Record of another method of the same class. *)
Definition fireAllRecord : DocItem :=
  {| id := "reference-engine-classes-bindableevent-bindableevent-fireall";
     title := "BindableEvent:FireAll";
     description := "Fires the event for every listener";
     url := "https://create.roblox.com/docs/reference/engine/classes/BindableEvent#FireAll";
     category := "Classes";
     keywords := ["bindableevent"; "fireall"];
     type := TMethod |}.

(** The Record of an event of the same class, which mentions the query
    ["fired"] in its description only. *)
Definition eventRecord : DocItem :=
  {| id := "reference-engine-classes-bindableevent-bindableevent-event";
     title := "BindableEvent.Event";
     description := "Fired when BindableEvent:Fire is called";
     url := "https://create.roblox.com/docs/reference/engine/classes/BindableEvent#Event";
     category := "Classes";
     keywords := ["bindableevent"; "event"];
     type := TEvent |}.

(** A deprecated method. *)
Definition legacyMethod : YamlItem :=
  {| name := "Part:breakJoints";
     summary := Some "Breaks the joints of the part";
     tags := Some ["Deprecated"] |}.

(** A class whose first 50 methods are deprecated, followed by one that is
    not. *)
Definition legacyDoc : YAMLDocData :=
  {| y_name := Some "Part";
     y_type := Some "class";
     y_summary := None;
     y_members :=
       {[ "methods" :=
            replicate 50 legacyMethod
            ++ [ {| name := "Part:GetMass";
                    summary := Some "The mass of the part";
                    tags := None |} ] ]} |}.

(** A first run without network: nothing cached, every request aborted. *)
Definition offline : World :=
  {| now := 1700000000000;
     cache := ∅;
     commits_main := Aborted;
     archive_main := Aborted;
     background := [];
     extensionVersion := "1.0.1" |}.

(** An entry written exactly 24 hours ago. *)
Definition dayOldEntry : CacheEntry :=
  {| data := processFiles Samples.partFiles;
     sha := Some "4f2a9c1";
     timestamp := 1700000000000 - 86400000 |}.

Definition exactlyOneDayOld : World :=
  {| now := 1700000000000;
     cache := {[ cacheKey := Serialized dayOldEntry ]};
     commits_main := Ok (Some "4f2a9c1");
     archive_main := Ok (Archive Samples.partFiles);
     background := [];
     extensionVersion := "1.0.1" |}.

(** A cache whose slot holds a text that does not parse. *)
Definition corruptCache : World :=
  {| now := 1700000000000;
     cache := {[ cacheKey := Corrupt "{ data: [" ]};
     commits_main := Ok (Some "4f2a9c1");
     archive_main := Ok (Archive Samples.partFiles);
     background := [];
     extensionVersion := "1.0.1" |}.

(** A world in which an update check was recorded ten minutes ago. *)
Definition checkedRecently : World :=
  {| now := 1700000000000;
     cache := {[ lastUpdateCheckKey := Decimal (1700000000000 - 600000) ]};
     commits_main := Ok (Some "4f2a9c1");
     archive_main := Ok (Archive Samples.partFiles);
     background := [];
     extensionVersion := "1.0.1" |}.

End MoreSamples.

(** * Properties *)

Import DataFetcher.

(** ** Loops that push on an accumulator *)

Section Loops.
Context {A B : Type}.

(** A loop that pushes [f x] on the accumulator when it is defined
    appends, in order, the defined values. *)
Lemma fold_left_push_omap (f : A → option B) (xs : list A) (acc : list B) :
  fold_left (fun acc x => match f x with Some y => push acc y | None => acc end)
    xs acc
  = acc ++ omap f xs.
Proof.
  revert acc. induction xs as [|x xs IH]; intros acc; simpl.
  - by rewrite app_nil_r.
  - rewrite IH. destruct (f x); simpl; [|done].
    unfold push. by rewrite <- app_assoc.
Qed.

(** The same for a loop that skips the elements on which [skip] holds. *)
Lemma fold_left_push_filter (skip : A → bool) (g : A → B) (xs : list A)
    (acc : list B) :
  fold_left (fun acc x => if skip x then acc else push acc (g x)) xs acc
  = acc ++ map g (filter (fun x => skip x = false) xs).
Proof.
  revert acc. induction xs as [|x xs IH]; intros acc; simpl.
  - by rewrite app_nil_r.
  - rewrite IH. rewrite filter_cons. destruct (skip x) eqn:E.
    + by rewrite decide_False by congruence.
    + rewrite decide_True by done. unfold push. simpl. by rewrite <- app_assoc.
Qed.
End Loops.

(** ** The ranker *)

Section RankerFacts.
Import Ranker.

Lemma elem_of_insert_scored (x y : Scored) (l : list Scored) :
  x ∈ insert_scored y l ↔ x = y ∨ x ∈ l.
Proof.
  induction l as [|z l IH]; simpl.
  - rewrite list_elem_of_singleton, elem_of_nil. tauto.
  - destruct (score z <=? score y).
    + rewrite !elem_of_cons. tauto.
    + rewrite !elem_of_cons, IH. tauto.
Qed.

Lemma elem_of_sort_scored (x : Scored) (l : list Scored) :
  x ∈ sort_scored l ↔ x ∈ l.
Proof.
  induction l as [|y l IH]; simpl; [done|].
  rewrite elem_of_insert_scored, IH, elem_of_cons. tauto.
Qed.

Lemma results_loop (searchLower : string) (allDocs : list DocItem) :
  fold_left (visitDoc searchLower) allDocs [] = omap (scoreDoc searchLower) allDocs.
Proof. unfold visitDoc. by rewrite fold_left_push_omap. Qed.

(** Every element of the sorted results was pushed by the loop for a
    Record of the input. *)
Lemma elem_of_sortedResults (q : string) (R : list DocItem) (item : Scored) :
  item ∈ sortedResults q R →
  ∃ d, d ∈ R ∧ scoreDoc (Js.toLowerCase q) d = Some item.
Proof.
  unfold sortedResults.
  destruct (length R =? 0)%nat; [by rewrite elem_of_nil|].
  destruct (trim_is_empty q); [by rewrite elem_of_nil|].
  rewrite elem_of_sort_scored, results_loop, list_elem_of_omap.
  intros (d & Hd & Hs). eauto.
Qed.

(** A Record that the loop keeps matches in one of the five fields. *)
Lemma scoreDoc_matches (searchLower : string) (d : DocItem) (item : Scored) :
  scoreDoc searchLower d = Some item →
  doc item = d ∧
  (Js.includes (Js.toLowerCase (title d)) searchLower = true
   ∨ Js.includes (Js.toLowerCase (description d)) searchLower = true
   ∨ (∃ k, k ∈ keywords d ∧ Js.includes (Js.toLowerCase k) searchLower = true)
   ∨ Js.includes (Js.toLowerCase (category d)) searchLower = true
   ∨ Js.includes (Js.toLowerCase (type_string (type d))) searchLower = true).
Proof.
  unfold scoreDoc.
  destruct (Js.includes (Js.toLowerCase (title d)) searchLower) eqn:Ht; simpl.
  { intros [= <-]. auto. }
  destruct (Js.includes (Js.toLowerCase (description d)) searchLower) eqn:Hd; simpl.
  { intros [= <-]. auto. }
  destruct (existsb _ (keywords d)) eqn:Hk; simpl.
  { intros [= <-]. split; [done|]. right; right; left.
    apply existsb_exists in Hk as (k & Hin & Hk).
    exists k. by rewrite list_elem_of_In. }
  destruct (Js.includes (Js.toLowerCase (category d)) searchLower) eqn:Hc; simpl.
  { intros [= <-]. auto 6. }
  destruct (Js.includes (Js.toLowerCase (type_string (type d))) searchLower) eqn:Hy;
    simpl; [|done].
  intros [= <-]. auto 6.
Qed.
End RankerFacts.

(** C5. For every Record set [R], every query [q] (the empty and the
    whitespace-only ones included, for which nothing is returned) and every
    limit, each Record returned by the ranker contains [q], letter case
    ignored, in its title, its description, one of its keywords, its
    category or its type. [filteredDocs] is the ranker at the limit 50. *)
Theorem ranked_record_contains_query (q : string) (R : list DocItem)
    (limit : nat) (d : DocItem) :
  d ∈ Ranker.rank q R limit →
  Ranker.contains_ci (title d) q = true
  ∨ Ranker.contains_ci (description d) q = true
  ∨ (∃ k, k ∈ keywords d ∧ Ranker.contains_ci k q = true)
  ∨ Ranker.contains_ci (category d) q = true
  ∨ Ranker.contains_ci (type_string (type d)) q = true.
Proof.
  unfold Ranker.rank, Ranker.contains_ci.
  rewrite list_elem_of_fmap. intros (item & -> & Hin).
  apply elem_of_take in Hin as (i & Hin%list_elem_of_lookup_2 & _).
  apply elem_of_sortedResults in Hin as (d & _ & Hs).
  apply scoreDoc_matches in Hs as [-> H]. exact H.
Qed.

Lemma ranked_record_contains_query_witness :
  Ranker.contains_ci (title Samples.fireRecord) "Fire" = true
  ∨ Ranker.contains_ci (description Samples.fireRecord) "Fire" = true
  ∨ (∃ k, k ∈ keywords Samples.fireRecord ∧ Ranker.contains_ci k "Fire" = true)
  ∨ Ranker.contains_ci (category Samples.fireRecord) "Fire" = true
  ∨ Ranker.contains_ci (type_string (type Samples.fireRecord)) "Fire" = true.
Proof.
  apply (ranked_record_contains_query "Fire" [Samples.fireRecord] 50
           Samples.fireRecord).
  vm_compute. apply list_elem_of_here.
Defined.

(** C6. For every query [q], Record set [R] and limit [n], the ranked
    result has at most [n] Records and is a prefix of the ranked result
    computed over the same inputs without a limit. *)
Theorem rank_truncation_is_prefix (q : string) (R : list DocItem) (n : nat) :
  (length (Ranker.rank q R n) ≤ n)%nat
  ∧ Ranker.rank q R n `prefix_of` Ranker.rankAll q R.
Proof.
  unfold Ranker.rank, Ranker.rankAll. split.
  - rewrite length_map, length_take. lia.
  - exists (map Ranker.doc (drop n (Ranker.sortedResults q R))).
    by rewrite <- map_app, take_drop.
Qed.

Section TitlePartFacts.
Import Ranker.

Lemma includes_char_false (a : ascii) (s : string) :
  Js.includes s (String a "") = false →
  all_chars (fun c => negb (Js.is_char a c)) s = true.
Proof.
  induction s as [|b s IH]; [done|]. simpl. unfold Js.is_char.
  destruct (Ascii.eqb a b); simpl; [by destruct s|]. exact IH.
Qed.

Lemma split_go_no_separator (sep : ascii → bool) (cur s : string) :
  all_chars (fun c => negb (sep c)) s = true →
  ∃ segment, Js.split_go sep cur s = [segment].
Proof.
  revert cur. induction s as [|c s IH]; intros cur; simpl; [eauto|].
  destruct (sep c); simpl; [done|]. apply IH.
Qed.

Lemma all_chars_and (p q : ascii → bool) (s : string) :
  all_chars p s = true → all_chars q s = true →
  all_chars (fun c => p c && q c) s = true.
Proof.
  induction s as [|c s IH]; [done|]. simpl.
  intros [Hp Hps]%andb_prop [Hq Hqs]%andb_prop. by rewrite Hp, Hq, IH.
Qed.

Lemma all_chars_ext (p q : ascii → bool) (s : string) :
  (∀ c, p c = q c) → all_chars p s = all_chars q s.
Proof. intros Hpq. induction s as [|c s IH]; simpl; by rewrite ?Hpq, ?IH. Qed.

(** The segment compared with the query is the second one of the title
    split at every [:] and [.], and the title itself when there is no such
    segment or when it is empty. On a title with one separator it is the
    segment after it. *)
Lemma titlePart_second_segment (titleLower : string) :
  titlePart titleLower
  = Js.or_else (Js.split is_separator titleLower !! 1%nat) titleLower.
Proof.
  unfold titlePart.
  destruct (Js.includes titleLower ":") eqn:Hcolon; [done|].
  destruct (Js.includes titleLower ".") eqn:Hdot; [done|]. simpl.
  apply includes_char_false in Hcolon, Hdot.
  pose proof (all_chars_and _ _ _ Hcolon Hdot) as Hnone.
  rewrite (all_chars_ext _ (fun c => negb (is_separator c))) in Hnone.
  - unfold Js.split.
    by destruct (split_go_no_separator is_separator "" titleLower Hnone) as [x ->].
  - intros c. unfold is_separator. by rewrite negb_orb.
Qed.
End TitlePartFacts.

(** The three tiers of a title match, as the code computes them: 1000 when
    the lower-cased title, or its [titlePart], is the lower-cased query;
    else 500 for a prefix; else 250. *)
Lemma titleMatchScore_tiers (searchLower titleLower : string) :
  (Ranker.titleMatchScore searchLower titleLower = 1000
   ↔ titleLower = searchLower ∨ Ranker.titlePart titleLower = searchLower)
  ∧ (Ranker.titleMatchScore searchLower titleLower = 500
     ↔ titleLower ≠ searchLower ∧ Ranker.titlePart titleLower ≠ searchLower
       ∧ Js.startsWith titleLower searchLower = true)
  ∧ (Ranker.titleMatchScore searchLower titleLower = 250
     ↔ titleLower ≠ searchLower ∧ Ranker.titlePart titleLower ≠ searchLower
       ∧ Js.startsWith titleLower searchLower = false).
Proof.
  unfold Ranker.titleMatchScore.
  destruct (String.eqb_spec titleLower searchLower) as [E1|E1];
    destruct (String.eqb_spec (Ranker.titlePart titleLower) searchLower) as [E2|E2];
    destruct (Js.startsWith titleLower searchLower) eqn:E3; simpl;
    intuition (try discriminate; try congruence).
Qed.

(** C4, on the title ["Enum.KeyCode.Space"]. The segment that the code
    compares with the query is the second one of the title split at [:] and
    [.], not the one after the last separator: the query ["space"], which is
    that last segment, gets the substring tier 250, and the query
    ["keycode"], which is neither the title nor its last segment, gets
    1000. *)
Theorem exact_tier_compares_second_segment :
  Js.pop (Js.split Ranker.is_separator (Js.toLowerCase "Enum.KeyCode.Space"))
  = Some "space"
  ∧ Js.includes (Js.toLowerCase "Enum.KeyCode.Space") "space" = true
  ∧ Ranker.titleMatchScore "space" (Js.toLowerCase "Enum.KeyCode.Space") = 250
  ∧ Js.includes (Js.toLowerCase "Enum.KeyCode.Space") "keycode" = true
  ∧ Ranker.titleMatchScore "keycode" (Js.toLowerCase "Enum.KeyCode.Space") = 1000.
Proof. vm_compute. auto. Qed.

(** ** The extractor *)

Section ExtractorFacts.
Import Extraction.

Lemma visitItem_loop (data : YAMLDocData) (key : string) (items : list YamlItem)
    (acc : list SubitemData) :
  fold_left (visitItem data key) items acc
  = acc ++ map (subitemOf data key)
             (filter (fun item => isDeprecated item = false) items).
Proof. unfold visitItem. apply fold_left_push_filter. Qed.

Lemma visitKey_eq (data : YAMLDocData) (acc : list SubitemData) (key : string) :
  visitKey data acc key = acc ++ map (subitemOf data key) (keptItems data key).
Proof.
  unfold visitKey, keptItems. destruct (y_members data !! key).
  - apply visitItem_loop.
  - by rewrite app_nil_r.
Qed.

Lemma visitKey_loop (data : YAMLDocData) (keys : list string)
    (acc : list SubitemData) :
  fold_left (visitKey data) keys acc
  = acc ++ (keys ≫= fun key => map (subitemOf data key) (keptItems data key)).
Proof.
  revert acc. induction keys as [|key keys IH]; intros acc; simpl.
  - by rewrite app_nil_r.
  - rewrite IH, visitKey_eq. by rewrite <- app_assoc.
Qed.

(** The [subitems] of a parsed definition document. *)
Lemma parseYamlFile_subitems (filePath url : string) (data : YAMLDocData)
    (meta : FileMetadata) :
  parseYamlFile filePath url (YamlDoc data) = Some meta →
  Js.truthy (y_name data) = true
  ∧ m_title meta = y_name data
  ∧ m_path meta = url
  ∧ m_subitems meta
    = Some (ENGINE_REF_ITEMS ≫= fun key =>
              map (subitemOf data key) (keptItems data key)).
Proof.
  unfold parseYamlFile. destruct (Js.truthy (y_name data)) eqn:E; cbn [negb]; [|done].
  intros [= <-]. cbn [m_title m_path m_subitems]. repeat split.
  f_equal. exact (visitKey_loop data ENGINE_REF_ITEMS []).
Qed.

Lemma addSubitem_loop (meta : FileMetadata) (subitems : list SubitemData)
    (acc : list DocItem) :
  fold_left (addSubitem meta) subitems acc
  = acc ++ omap (fun subitem => subitemToDocItem subitem meta) subitems.
Proof. unfold addSubitem. apply fold_left_push_omap. Qed.

(** The Records of one file: the parent's, then those of its sub-entries. *)
Lemma recordsOf_eq (meta : FileMetadata) :
  recordsOf meta
  = match metadataToDocItem meta with
    | Some docItem =>
        docItem :: omap (fun subitem => subitemToDocItem subitem meta)
                     (default [] (m_subitems meta))
    | None => []
    end.
Proof.
  unfold recordsOf, addMetadata. destruct (metadataToDocItem meta); [|done].
  destruct (m_subitems meta); simpl; [|done].
  by rewrite addSubitem_loop.
Qed.

Lemma addMetadata_eq (acc : list DocItem) (meta : FileMetadata) :
  addMetadata acc meta = acc ++ recordsOf meta.
Proof.
  rewrite recordsOf_eq. unfold addMetadata.
  destruct (metadataToDocItem meta); [|by rewrite app_nil_r].
  destruct (m_subitems meta); simpl; [|done].
  rewrite addSubitem_loop. unfold push. by rewrite <- app_assoc.
Qed.

Lemma addMetadata_loop (metas : list FileMetadata) (acc : list DocItem) :
  fold_left addMetadata metas acc = acc ++ (metas ≫= recordsOf).
Proof.
  revert acc. induction metas as [|meta metas IH]; intros acc; simpl.
  - by rewrite app_nil_r.
  - rewrite IH, addMetadata_eq. by rewrite <- app_assoc.
Qed.

(** [batchResults.filter((m) => m !== null)] after [batch.map]. *)
Lemma valid_results (batch : list ZipObject) :
  omap (fun m => m) (map processFile batch) = omap processFile batch.
Proof.
  induction batch as [|file batch IH]; [done|].
  rewrite map_cons. cbn [omap list_omap]. rewrite IH.
  by destruct (processFile file).
Qed.

(** The batch loop, given enough iterations, visits the files from index
    [i] on, in order. *)
Lemma batchLoop_eq (fuel : nat) (relevantFiles : list ZipObject) (i : nat)
    (acc : list DocItem) :
  (length relevantFiles ≤ i + fuel)%nat →
  batchLoop fuel relevantFiles i acc
  = acc ++ (omap processFile (drop i relevantFiles) ≫= recordsOf).
Proof.
  assert (BATCH_SIZE = 25%nat) as Hsize by done.
  revert i acc. induction fuel as [|fuel IH]; intros i acc Hfuel; simpl.
  - rewrite drop_ge by lia. by rewrite app_nil_r.
  - destruct (Nat.ltb_spec i (length relevantFiles)) as [Hi|Hi].
    + rewrite IH by lia. rewrite addMetadata_loop.
      unfold slice. replace (i + BATCH_SIZE - i)%nat with BATCH_SIZE by lia.
      rewrite <- app_assoc. f_equal.
      assert (drop i relevantFiles
              = take BATCH_SIZE (drop i relevantFiles)
                ++ drop (i + BATCH_SIZE) relevantFiles) as Hsplit
        by (by rewrite <- drop_drop, take_drop).
      set (batch := take BATCH_SIZE (drop i relevantFiles)) in *.
      by rewrite Hsplit, omap_app, bind_app, valid_results.
    + rewrite drop_ge by lia. by rewrite app_nil_r.
Qed.

(** The Records of an archive: those of its relevant files, in order. *)
Lemma processFiles_eq (files : list ZipObject) :
  processFiles files = metadataOf files ≫= recordsOf.
Proof.
  unfold processFiles, metadataOf.
  rewrite batchLoop_eq by lia. by rewrite drop_0.
Qed.

End ExtractorFacts.

Section SubEntryFacts.
Import Extraction.

Lemma elem_of_keptItems (data : YAMLDocData) (key : string) (item : YamlItem) :
  item ∈ keptItems data key →
  item ∈ allItems data key ∧ isDeprecated item = false.
Proof.
  unfold keptItems, allItems. destruct (y_members data !! key) as [keyData|]; simpl.
  - rewrite list_elem_of_filter. intros [Hkeep Hin]. split; [|done].
    apply elem_of_take in Hin as (i & Hin%list_elem_of_lookup_2 & _). done.
  - by rewrite elem_of_nil.
Qed.

Lemma subitemToDocItem_title (subitem : SubitemData) (meta : FileMetadata)
    (r : DocItem) :
  subitemToDocItem subitem meta = Some r → title r = s_title subitem.
Proof.
  unfold subitemToDocItem. destruct (String.eqb (s_title subitem) ""); [done|].
  by intros [= <-].
Qed.

(** Every Record of a definition document is the Record of the document
    itself or the Record of one of its sub-entries, among the first 50 of
    a category and not deprecated. *)
Lemma yaml_record_origin (filePath url : string) (data : YAMLDocData)
    (meta : FileMetadata) (r : DocItem) :
  parseYamlFile filePath url (YamlDoc data) = Some meta →
  r ∈ recordsOf meta →
  metadataToDocItem meta = Some r
  ∨ ∃ key item,
      key ∈ ENGINE_REF_ITEMS ∧ item ∈ keptItems data key
      ∧ subitemToDocItem (subitemOf data key item) meta = Some r.
Proof.
  intros (_ & _ & _ & Hsubs)%parseYamlFile_subitems.
  rewrite recordsOf_eq, Hsubs.
  destruct (metadataToDocItem meta) as [parent|]; [|by rewrite elem_of_nil].
  rewrite elem_of_cons. intros [->|Hin]; [by left|right].
  apply list_elem_of_omap in Hin as (subitem & Hin & Hr).
  apply list_elem_of_bind in Hin as (key & Hin & Hkey).
  apply list_elem_of_fmap in Hin as (item & -> & Hitem).
  eauto.
Qed.
End SubEntryFacts.

(** C3, as the code has it. In a definition document, the Record of a
    sub-entry takes the title [Owner.Member] when the owner's type is
    [enum]; for any other owner the title is the sub-entry's name as the
    source gives it, and the extractor adds no owner prefix. *)
Theorem subentry_title_by_owner_type (filePath url : string) (data : YAMLDocData)
    (meta : FileMetadata) (r : DocItem) :
  parseYamlFile filePath url (YamlDoc data) = Some meta →
  r ∈ Extraction.recordsOf meta →
  metadataToDocItem meta = Some r
  ∨ ∃ owner key item,
      y_name data = Some owner
      ∧ item ∈ Extraction.allItems data key
      ∧ (y_type data = Some "enum" → title r = owner +:+ "." +:+ name item)
      ∧ (y_type data ≠ Some "enum" → title r = name item).
Proof.
  intros Hparse Hin.
  destruct (yaml_record_origin _ _ _ _ _ Hparse Hin)
    as [Hparent|(key & item & _ & Hitem & Hr)]; [by left|right].
  apply parseYamlFile_subitems in Hparse as (Hname & _).
  destruct (y_name data) as [owner|] eqn:Howner; [|done].
  exists owner, key, item. split; [done|].
  apply elem_of_keptItems in Hitem as [Hitem _]. split; [done|].
  apply subitemToDocItem_title in Hr. rewrite Hr. simpl.
  unfold subitemTitle. rewrite Howner. simpl.
  split; intros Htype.
  - by rewrite bool_decide_eq_true_2.
  - by rewrite bool_decide_eq_false_2.
Qed.

Lemma subentry_title_by_owner_type_witness :
  ∃ meta r,
    r ∈ Extraction.recordsOf meta
    ∧ title r = "Anchored"
    ∧ (metadataToDocItem meta = Some r
       ∨ ∃ owner key item,
           y_name Samples.partDoc = Some owner
           ∧ item ∈ Extraction.allItems Samples.partDoc key
           ∧ (y_type Samples.partDoc = Some "enum"
              → title r = owner +:+ "." +:+ name item)
           ∧ (y_type Samples.partDoc ≠ Some "enum" → title r = name item)).
Proof.
  eexists _, _. split; [|split].
  3: { apply (subentry_title_by_owner_type Samples.partPath Samples.partUrl
                Samples.partDoc).
       - vm_compute. reflexivity.
       - vm_compute. apply list_elem_of_further, list_elem_of_here. }
  - vm_compute. apply list_elem_of_further, list_elem_of_here.
  - reflexivity.
Defined.

(** C3 as stated fails: the property [Anchored] of the class [Part] gives a
    Record titled ["Anchored"], which is not ["Part.Anchored"] and does not
    even contain the owner's name. *)
Lemma class_member_title_not_owner_qualified :
  ¬ (∀ (filePath url : string) (data : YAMLDocData) (meta : FileMetadata)
       (owner key : string) (item : YamlItem) (r : DocItem),
       parseYamlFile filePath url (YamlDoc data) = Some meta →
       y_name data = Some owner →
       item ∈ Extraction.keptItems data key →
       subitemToDocItem (subitemOf data key item) meta = Some r →
       Js.includes (title r) owner = true)
  ∧ ¬ (∀ (filePath url : string) (data : YAMLDocData) (meta : FileMetadata)
         (owner key : string) (item : YamlItem) (r : DocItem),
         parseYamlFile filePath url (YamlDoc data) = Some meta →
         y_name data = Some owner →
         item ∈ Extraction.keptItems data key →
         subitemToDocItem (subitemOf data key item) meta = Some r →
         title r = owner +:+ "." +:+ name item).
Proof.
  pose (item := {| name := "Anchored";
                   summary := Some "Whether physics moves the part";
                   tags := None |}).
  eassert (∃ meta r,
    parseYamlFile Samples.partPath Samples.partUrl (YamlDoc Samples.partDoc) = Some meta
    ∧ subitemToDocItem (subitemOf Samples.partDoc "properties" item) meta = Some r
    ∧ title r = "Anchored") as (meta & r & Hparse & Hr & Htitle).
  { eexists _, _. split; [vm_compute; reflexivity|].
    split; [vm_compute; reflexivity|]. reflexivity. }
  assert (item ∈ Extraction.keptItems Samples.partDoc "properties") as Hitem
    by (vm_compute; apply list_elem_of_here).
  split; intros Hclaim;
    specialize (Hclaim _ _ _ _ "Part" "properties" item r Hparse eq_refl Hitem Hr);
    rewrite Htitle in Hclaim; discriminate Hclaim.
Qed.

(** C9. In a definition document, every Record other than the document's
    own comes from a sub-entry that does not carry the [Deprecated] tag; and
    when every sub-entry of a given name is deprecated, no sub-entry Record
    has the title the extractor gives to that name. *)
Theorem deprecated_subentries_dropped (filePath url : string) (data : YAMLDocData)
    (meta : FileMetadata) :
  parseYamlFile filePath url (YamlDoc data) = Some meta →
  (∀ r, r ∈ Extraction.recordsOf meta →
     metadataToDocItem meta = Some r
     ∨ ∃ key item,
         item ∈ Extraction.allItems data key
         ∧ isDeprecated item = false
         ∧ subitemToDocItem (subitemOf data key item) meta = Some r)
  ∧ (∀ n,
       (∀ key item,
          item ∈ Extraction.allItems data key → name item = n →
          isDeprecated item = true) →
       ∀ r, r ∈ Extraction.recordsOf meta →
         title r = subitemTitle data n → metadataToDocItem meta = Some r).
Proof.
  intros Hparse. split.
  - intros r Hin.
    destruct (yaml_record_origin _ _ _ _ _ Hparse Hin)
      as [Hparent|(key & item & _ & Hitem & Hr)]; [by left|right].
    apply elem_of_keptItems in Hitem as [Hitem Hkeep]. eauto.
  - intros n Hdeprecated r Hin Htitle.
    destruct (yaml_record_origin _ _ _ _ _ Hparse Hin)
      as [Hparent|(key & item & _ & Hitem & Hr)]; [done|exfalso].
    apply elem_of_keptItems in Hitem as [Hitem Hkeep].
    apply subitemToDocItem_title in Hr. rewrite Hr in Htitle. simpl in Htitle.
    assert (name item = n) as Hname.
    { unfold subitemTitle in Htitle. destruct (bool_decide _); [|done].
      by simplify_eq. }
    rewrite (Hdeprecated key item Hitem Hname) in Hkeep. done.
Qed.

Lemma deprecated_subentries_dropped_witness :
  ∃ meta,
    parseYamlFile Samples.partPath Samples.partUrl (YamlDoc Samples.partDoc) = Some meta
    ∧ ∀ r, r ∈ Extraction.recordsOf meta →
        title r = subitemTitle Samples.partDoc "Part:breakJoints" →
        metadataToDocItem meta = Some r.
Proof.
  eexists. split; [vm_compute; reflexivity|].
  refine (proj2 (deprecated_subentries_dropped Samples.partPath Samples.partUrl
                   Samples.partDoc _ _) "Part:breakJoints" _).
  - vm_compute. reflexivity.
  - intros key item. unfold Extraction.allItems, Samples.partDoc; simpl.
    destruct (decide (key = "properties")) as [->|Hp].
    { rewrite lookup_insert_eq; simpl. rewrite list_elem_of_singleton.
      by intros -> [=]. }
    rewrite lookup_insert_ne by done.
    destruct (decide (key = "methods")) as [->|Hm].
    { rewrite lookup_singleton_eq; simpl. rewrite list_elem_of_singleton.
      by intros -> _. }
    rewrite lookup_singleton_ne by done. simpl. by rewrite elem_of_nil.
Defined.

(** ** Descriptions *)

Section DescriptionFacts.

Lemma length_app (s t : string) :
  String.length (s +:+ t) = (String.length s + String.length t)%nat.
Proof. induction s as [|c s IH]; simpl; [done|]. by rewrite IH. Qed.

Lemma length_take_le (n : nat) (s : string) :
  (String.length (Js.take n s) ≤ n)%nat.
Proof.
  revert s. induction n as [|n IH]; intros [|c s]; simpl; try lia.
  specialize (IH s). lia.
Qed.

(** What [truncateDescription] returns has at most 200 characters of the
    source and the three of the ellipsis. *)
Lemma truncateDescription_length (d : option string) :
  (String.length (truncateDescription d) ≤ 203)%nat.
Proof.
  unfold truncateDescription. destruct d as [d|]; [|simpl; lia].
  destruct (String.eqb d ""); [simpl; lia|]. cbv zeta.
  destruct (Nat.ltb_spec 200 (String.length d)) as [Hlong|Hshort]; [|lia].
  rewrite length_app. pose proof (length_take_le 200 d).
  change (String.length "...") with 3%nat. lia.
Qed.

Lemma or_else_empty (o : option string) : Js.or_else o "" = default "" o.
Proof.
  destruct o as [s|]; [|done]. unfold Js.or_else.
  by destruct (String.eqb_spec s "") as [->|].
Qed.

(** The description of the Record of a file is a truncated one, or empty. *)
Lemma file_record_description_length (file : ZipObject) (meta : FileMetadata)
    (r : DocItem) :
  processFile file = Some meta →
  metadataToDocItem meta = Some r →
  (String.length (description r) ≤ 203)%nat.
Proof.
  intros Hfile Hr.
  assert (String.length (Js.or_else (m_description meta) "") ≤ 203)%nat as Hd.
  { rewrite or_else_empty.
    unfold processFile in Hfile. destruct (async_text file) as [content|]; [|done].
    destruct (Js.endsWith (relativePath file) ".md").
    - unfold parseMarkdownFile, pathOnlyMetadata in Hfile.
      destruct (frontmatter content) as [[| |fm]|]; simplify_eq;
        cbn [m_description default]; try (simpl; lia).
      apply truncateDescription_length.
    - destruct (Js.endsWith (relativePath file) ".yaml"); [|done].
      unfold parseYamlFile in Hfile. destruct (yaml content) as [| |data]; try done.
      destruct (negb _); simplify_eq; cbn [m_description default].
      apply truncateDescription_length. }
  unfold metadataToDocItem in Hr. destruct (m_title meta) as [t|]; [|done].
  destruct (String.eqb t ""); [done|]. by simplify_eq.
Qed.

Lemma truncateDescription_falsy (d : option string) :
  Js.truthy d = false → truncateDescription d = "".
Proof.
  unfold Js.truthy, truncateDescription. destruct d as [d|]; [|done].
  by destruct (String.eqb d "").
Qed.

Lemma truncateDescription_truthy (d : option string) :
  Js.truthy d = true → truncateDescription d ≠ "".
Proof.
  unfold Js.truthy, truncateDescription. destruct d as [d|]; [|done].
  destruct (String.eqb_spec d "") as [->|Hd]; [done|]. intros _. cbv zeta.
  destruct (200 <? String.length d)%nat; [|done].
  intros Hempty%(f_equal String.length). rewrite length_app in Hempty.
  simpl in Hempty. lia.
Qed.

(** The description of the Record of a sub-entry is its truncated summary
    when it has one, and otherwise a label made of the category key and
    of the owner's title, which is not truncated. *)
Lemma subentry_description (data : YAMLDocData) (key : string) (item : YamlItem)
    (meta : FileMetadata) (r : DocItem) :
  subitemToDocItem (subitemOf data key item) meta = Some r →
  (Js.truthy (summary item) = true
   ∧ description r = truncateDescription (summary item)
   ∧ (String.length (description r) ≤ 203)%nat)
  ∨ (Js.truthy (summary item) = false
     ∧ description r
       = Js.drop_last key +:+ " of " +:+ interpolate (m_title meta)).
Proof.
  unfold subitemToDocItem. cbn [subitemOf s_title s_description s_type].
  destruct (String.eqb (subitemTitle data (name item)) ""); [done|].
  intros [= <-]. cbn [description]. unfold Js.or_else.
  destruct (Js.truthy (summary item)) eqn:Hsummary; [left|right].
  - apply truncateDescription_truthy in Hsummary.
    destruct (String.eqb_spec (truncateDescription (summary item)) ""); [done|].
    split; [done|]. split; [done|]. apply truncateDescription_length.
  - apply truncateDescription_falsy in Hsummary. by rewrite Hsummary.
Qed.
End DescriptionFacts.

Section ArchiveDescriptionFacts.
Import Extraction.

(** The Records of an archive: every description is within the cap, or is
    the label of a sub-entry without summary. *)
Lemma archive_descriptions (files : list ZipObject) (r : DocItem) :
  r ∈ processFiles files →
  (String.length (description r) ≤ 203)%nat
  ∨ ∃ key owner, description r = Js.drop_last key +:+ " of " +:+ owner.
Proof.
  rewrite processFiles_eq. intros (meta & Hr & Hmeta)%list_elem_of_bind.
  apply list_elem_of_omap in Hmeta as (file & _ & Hfile).
  rewrite recordsOf_eq in Hr.
  destruct (metadataToDocItem meta) as [parent|] eqn:Hparent;
    [|by apply elem_of_nil in Hr].
  apply elem_of_cons in Hr as [->|Hr].
  { left. by eapply file_record_description_length. }
  apply list_elem_of_omap in Hr as (subitem & Hsub & Hr).
  unfold processFile in Hfile. destruct (async_text file) as [content|]; [|done].
  destruct (Js.endsWith (relativePath file) ".md").
  { unfold parseMarkdownFile, pathOnlyMetadata in Hfile.
    destruct (frontmatter content) as [[| |fm]|]; simplify_eq;
      by apply elem_of_nil in Hsub. }
  destruct (Js.endsWith (relativePath file) ".yaml"); [|done].
  destruct (yaml content) as [| |data]; try done.
  apply parseYamlFile_subitems in Hfile as (_ & _ & _ & Hsubs).
  rewrite Hsubs in Hsub. cbn [default] in Hsub.
  apply list_elem_of_bind in Hsub as (key & Hsub & _).
  apply list_elem_of_fmap in Hsub as (item & -> & _).
  apply subentry_description in Hr as [(_ & _ & Hlen)|(_ & Hlabel)]; eauto.
Qed.
End ArchiveDescriptionFacts.

(** C8, on a definition document whose name has 200 characters and whose
    property [Size] has no summary. The Record of the property gets the
    label ["propertie of " + name] as its description: 213 characters, above
    the cap of 203, because the label does not pass through
    [truncateDescription]. *)
Theorem fallback_description_exceeds_cap :
  ∃ r, r ∈ processFiles [Samples.longNameFile]
       ∧ title r = "Size"
       ∧ description r = "propertie of " +:+ Samples.repeat_char "A" 200
       ∧ String.length (description r) = 213%nat.
Proof.
  eexists. split; [|split; [|split]].
  - vm_compute. apply list_elem_of_further, list_elem_of_here.
  - reflexivity.
  - vm_compute. reflexivity.
  - vm_compute. reflexivity.
Qed.

(** ** Ids *)

Section IdFacts.
Import Extraction.

Lemma lower_after_dash (c : ascii) :
  Js.lower_char (if negb (Js.is_alnum c) then "-"%char else c)
  = if Js.is_alnum c then Js.lower_char c else "-"%char.
Proof. by destruct (Js.is_alnum c). Qed.

Lemma dash_after_lower (c : ascii) :
  (if negb (Js.is_lower_alnum (Js.lower_char c)) then "-"%char else Js.lower_char c)
  = if Js.is_alnum c then Js.lower_char c else "-"%char.
Proof. by destruct c as [[] [] [] [] [] [] [] []]. Qed.

Lemma map_chars_compose (f g : ascii → ascii) (s : string) :
  Js.map_chars f (Js.map_chars g s) = Js.map_chars (fun c => f (g c)) s.
Proof. induction s as [|c s IH]; simpl; by rewrite ?IH. Qed.

Lemma map_chars_ext (f g : ascii → ascii) (s : string) :
  (∀ c, f c = g c) → Js.map_chars f s = Js.map_chars g s.
Proof. intros Hfg. induction s as [|c s IH]; simpl; by rewrite ?IH, ?Hfg. Qed.

(** [s.replace(/[^a-z0-9]/gi, "-").toLowerCase()] *)
Lemma replace_then_lower (s : string) :
  Js.toLowerCase (Js.replace_class (fun c => negb (Js.is_alnum c)) "-" s)
  = normalise s.
Proof.
  unfold Js.toLowerCase, Js.replace_class, normalise.
  rewrite map_chars_compose. apply map_chars_ext, lower_after_dash.
Qed.

(** [s.toLowerCase().replace(/[^a-z0-9]/g, "-")] *)
Lemma lower_then_replace (s : string) :
  Js.replace_class (fun c => negb (Js.is_lower_alnum c)) "-" (Js.toLowerCase s)
  = normalise s.
Proof.
  unfold Js.toLowerCase, Js.replace_class, normalise.
  rewrite map_chars_compose. apply map_chars_ext, dash_after_lower.
Qed.

Lemma generateIdFromPath_normalise (path : string) :
  generateIdFromPath path = normalise (cleanPath path).
Proof. apply replace_then_lower. Qed.

Lemma subitem_ids (meta : FileMetadata) (subitems : list SubitemData) :
  map id (omap (fun subitem => subitemToDocItem subitem meta) subitems)
  = map sourceKey
      (map (fun subitem => FromSubitem (m_path meta) (s_title subitem))
         (filter (fun subitem => s_title subitem ≠ "") subitems)).
Proof.
  induction subitems as [|subitem subitems IH]; [done|].
  rewrite filter_cons. cbn [omap list_omap]. unfold subitemToDocItem at 1.
  destruct (String.eqb_spec (s_title subitem) "") as [Hempty|Hfull].
  - by rewrite decide_False by (by intros ?).
  - rewrite decide_True by done. cbn [map id sourceKey]. rewrite <- IH.
    by rewrite generateIdFromPath_normalise, lower_then_replace.
Qed.

(** The ids of the Records of one file are the normalised forms of their
    sources. *)
Lemma record_ids (meta : FileMetadata) :
  map id (recordsOf meta) = map sourceKey (sourcesOf meta).
Proof.
  rewrite recordsOf_eq. unfold metadataToDocItem, sourcesOf, Js.truthy.
  destruct (m_title meta) as [t|]; [|done].
  destruct (String.eqb t ""); [done|].
  cbn [negb map id sourceKey].
  by rewrite subitem_ids, generateIdFromPath_normalise.
Qed.

Lemma archive_ids (files : list ZipObject) :
  map id (processFiles files) = map sourceKey (metadataOf files ≫= sourcesOf).
Proof.
  rewrite processFiles_eq. induction (metadataOf files) as [|meta metas IH]; [done|].
  cbn [mbind list_bind]. by rewrite !map_app, IH, record_ids.
Qed.
End IdFacts.




(** ** The cache and the refresh *)

Section CacheFacts.

(** Unfolds the plumbing of [Async]. *)
Ltac run :=
  unfold mbind, Async_bind, bind, try_catch, cache_get, cache_set, Date_now,
    JSON_parse, read, update, ret, throw in *;
  cbn [fst snd] in *.

(** Reading the cache changes nothing. *)
Lemma getCachedData_world (w : World) : snd (getCachedData w) = w.
Proof.
  unfold getCachedData. run.
  destruct (cache w !! cacheKey) as [[entry|n|text]|]; simpl; try done.
  - by destruct (cacheExpiry <? now w - timestamp entry).
  - by destruct (String.eqb text "").
Qed.

(** An entry that has not expired is returned. *)
Lemma getCachedData_fresh (w : World) (entry : CacheEntry) :
  cache w !! cacheKey = Some (Serialized entry) →
  now w - timestamp entry ≤ cacheExpiry →
  getCachedData w = (Returned (Some (JEntry entry)), w).
Proof.
  intros Hcache Hfresh. unfold getCachedData. run. rewrite Hcache. simpl.
  by destruct (Z.ltb_spec cacheExpiry (now w - timestamp entry)); [lia|].
Qed.

(** An expired entry, a text that does not parse and an empty slot all
    read as [null]. *)
Lemma getCachedData_expired (w : World) (entry : CacheEntry) :
  cache w !! cacheKey = Some (Serialized entry) →
  cacheExpiry < now w - timestamp entry →
  getCachedData w = (Returned None, w).
Proof.
  intros Hcache Hold. unfold getCachedData. run. rewrite Hcache. simpl.
  by destruct (Z.ltb_spec cacheExpiry (now w - timestamp entry)); [|lia].
Qed.

Lemma getCachedData_corrupt (w : World) (text : string) :
  cache w !! cacheKey = Some (Corrupt text) →
  getCachedData w = (Returned None, w).
Proof.
  intros Hcache. unfold getCachedData. run. rewrite Hcache. simpl.
  by destruct (String.eqb text "").
Qed.

Lemma getCachedData_absent (w : World) :
  cache w !! cacheKey = None → getCachedData w = (Returned None, w).
Proof. intros Hcache. unfold getCachedData. run. by rewrite Hcache. Qed.

(** What the cache read answers does not depend on the version of the
    running extension. *)
Lemma getCachedData_ignores_version (v : string) (w : World) :
  fst (getCachedData (set_extensionVersion v w)) = fst (getCachedData w).
Proof.
  unfold getCachedData. run. simpl.
  destruct (cache w !! cacheKey) as [[entry|n|text]|]; simpl; try done.
  - by destruct (cacheExpiry <? now w - timestamp entry).
  - by destruct (String.eqb text "").
Qed.

(** The version check never throws and changes nothing. *)
Lemma getLatestCommitSha_total (w : World) :
  ∃ latestSha, getLatestCommitSha w = (Returned latestSha, w).
Proof.
  unfold getLatestCommitSha. run.
  destruct (commits_main w) as [|statusText|data_sha]; eauto.
Qed.

(** A refresh never throws; it leaves the world as it was, or with the
    Cache Entry overwritten. *)
Lemma fetchFreshData_total (w : World) :
  ∃ docItems w',
    fetchFreshData w = (Returned docItems, w')
    ∧ (w' = w ∨ ∃ stored, w' = set_cache (insert cacheKey stored) w).
Proof.
  unfold fetchFreshData.
  destruct (getLatestCommitSha_total w) as [latestSha Hsha].
  unfold mbind at 1, Async_bind at 1, bind at 1. rewrite Hsha.
  unfold processZipArchiveOptimized. run.
  destruct (archive_main w) as [|statusText|[|files]]; simpl; eauto 6.
Qed.

(** A refresh on bytes that are not an archive. *)
Lemma fetchFreshData_not_an_archive (w : World) :
  archive_main w = Ok NotAnArchive → fetchFreshData w = (Returned [], w).
Proof.
  intros Harchive. unfold fetchFreshData.
  destruct (getLatestCommitSha_total w) as [latestSha Hsha].
  unfold mbind at 1, Async_bind at 1, bind at 1. rewrite Hsha.
  unfold processZipArchiveOptimized. run. by rewrite Harchive.
Qed.
End CacheFacts.

Section ServeFacts.

(** An entry that has not expired and holds Records is served from the
    cache; unless an update check was recorded before, a detached update
    check is started with the entry's [sha]. *)
Lemma nonempty_cached_entry_is_served (w : World) (entry : CacheEntry) :
  cache w !! cacheKey = Some (Serialized entry) →
  now w - timestamp entry ≤ cacheExpiry →
  data entry ≠ [] →
  fst (fetchDocsData w) = Returned (data entry)
  ∧ (cache w !! lastUpdateCheckKey = None →
     background (snd (fetchDocsData w)) = background w ++ [sha entry]).
Proof.
  intros Hcache Hfresh Hdata.
  assert (fetchDocsData w
          = bind (checkForUpdatesInBackground (sha entry))
              (fun _ => ret (data entry)) w) as ->.
  { unfold fetchDocsData. unfold mbind at 1, Async_bind at 1, bind at 1.
    rewrite (getCachedData_fresh w entry Hcache Hfresh).
    by destruct (data entry). }
  unfold checkForUpdatesInBackground, mbind, Async_bind, bind, cache_get, cache_set,
    Date_now, read, update, ret. simpl.
  destruct (cache w !! lastUpdateCheckKey) as [stored|] eqn:Hlast; simpl.
  - destruct (nonempty stored && _); simpl; by split.
  - unfold push. by split.
Qed.
End ServeFacts.

(** C1, on an entry written by release 1.0.0 and read one hour later by
    release 1.0.1. The stored entry carries no version tag and the read
    compares none: the entry is returned, and [fetchDocsData] serves its
    Records, although the version of the extension has changed. *)
Theorem cached_entry_survives_version_change :
  extensionVersion Samples.firstRun = "1.0.0"
  ∧ extensionVersion Samples.afterUpgrade = "1.0.1"
  ∧ ∃ entry,
      cache Samples.afterUpgrade !! cacheKey = Some (Serialized entry)
      ∧ fst (getCachedData Samples.afterUpgrade) = Returned (Some (JEntry entry))
      ∧ data entry = processFiles Samples.partFiles
      ∧ fst (fetchDocsData Samples.afterUpgrade) = Returned (data entry).
Proof.
  split; [reflexivity|]. split; [reflexivity|].
  eexists. split; [vm_compute; reflexivity|].
  split; [vm_compute; reflexivity|]. split; vm_compute; reflexivity.
Qed.

(** C2, as the code has it. When the downloaded bytes are not an archive,
    [processZipArchiveOptimized] throws; [fetchFreshData] catches the
    failure and returns the empty Record list to its caller; and the cache
    is left as it was, so an entry that is still valid is neither cleared
    nor overwritten. *)
Theorem invalid_archive_gives_empty_result (w : World) :
  archive_main w = Ok NotAnArchive →
  fst (processZipArchiveOptimized NotAnArchive w) = Thrown ZipError
  ∧ fst (fetchFreshData w) = Returned []
  ∧ cache (snd (fetchFreshData w)) = cache w
  ∧ fst (getCachedData (snd (fetchFreshData w))) = fst (getCachedData w).
Proof.
  intros Harchive. split; [done|].
  by rewrite (fetchFreshData_not_an_archive w Harchive).
Qed.

Lemma invalid_archive_gives_empty_result_witness :
  fst (processZipArchiveOptimized NotAnArchive Samples.brokenDownload) = Thrown ZipError
  ∧ fst (fetchFreshData Samples.brokenDownload) = Returned []
  ∧ cache (snd (fetchFreshData Samples.brokenDownload)) = cache Samples.brokenDownload
  ∧ fst (getCachedData (snd (fetchFreshData Samples.brokenDownload)))
    = fst (getCachedData Samples.brokenDownload).
Proof.
  apply (invalid_archive_gives_empty_result Samples.brokenDownload). reflexivity.
Defined.

(** C2 as stated fails: the failure to open the archive does not reach the
    caller of the refresh; with a valid entry in the cache and bytes that
    are not an archive, [fetchFreshData] returns the empty list. *)
Lemma invalid_archive_failure_not_propagated :
  ¬ (∀ w : World,
       archive_main w = Ok NotAnArchive →
       ∃ e, fst (fetchFreshData w) = Thrown e).
Proof.
  intros Hclaim.
  destruct (Hclaim Samples.brokenDownload eq_refl) as [e He].
  vm_compute in He. discriminate He.
Qed.

(** C10. If the cache holds an entry that has not expired and whose Record
    list is empty, [fetchDocsData] does what [fetchFreshData] does, result
    and world alike: the cached empty list is not what it returns unless the
    fresh fetch returns it, no detached update check is started, and the
    time of the last update check is not touched. *)
Theorem empty_cached_entry_is_a_miss (w : World) (entry : CacheEntry) :
  cache w !! cacheKey = Some (Serialized entry) →
  now w - timestamp entry ≤ cacheExpiry →
  data entry = [] →
  fetchDocsData w = fetchFreshData w
  ∧ background (snd (fetchDocsData w)) = background w
  ∧ cache (snd (fetchDocsData w)) !! lastUpdateCheckKey
    = cache w !! lastUpdateCheckKey.
Proof.
  intros Hcache Hfresh Hempty.
  assert (fetchDocsData w = fetchFreshData w) as Hmiss.
  { unfold fetchDocsData. unfold mbind at 1, Async_bind at 1, bind at 1.
    rewrite (getCachedData_fresh w entry Hcache Hfresh). by rewrite Hempty. }
  split; [done|]. rewrite Hmiss.
  destruct (fetchFreshData_total w) as (docItems & w' & -> & [->|[stored ->]]);
    simpl; [done|].
  split; [done|]. by rewrite lookup_insert_ne.
Qed.

Lemma empty_cached_entry_is_a_miss_witness :
  fetchDocsData Samples.emptyEntryCached = fetchFreshData Samples.emptyEntryCached
  ∧ background (snd (fetchDocsData Samples.emptyEntryCached))
    = background Samples.emptyEntryCached
  ∧ cache (snd (fetchDocsData Samples.emptyEntryCached)) !! lastUpdateCheckKey
    = cache Samples.emptyEntryCached !! lastUpdateCheckKey.
Proof.
  apply (empty_cached_entry_is_a_miss Samples.emptyEntryCached (Samples.recentEntry [])).
  - vm_compute. reflexivity.
  - vm_compute. discriminate.
  - reflexivity.
Defined.

(** ** More on the ranker *)

Section RankerOrder.
Import Ranker Matching.

Lemma insert_scored_perm (x : Scored) (l : list Scored) :
  insert_scored x l ≡ₚ x :: l.
Proof.
  induction l as [|y l IH]; simpl; [done|].
  destruct (score y <=? score x); [done|].
  rewrite IH. apply Permutation_swap.
Qed.

Lemma sort_scored_perm (l : list Scored) : sort_scored l ≡ₚ l.
Proof.
  induction l as [|x l IH]; simpl; [done|].
  by rewrite insert_scored_perm, IH.
Qed.

Lemma insert_scored_descending (x : Scored) (l : list Scored) :
  descending l → descending (insert_scored x l).
Proof.
  unfold descending. induction l as [|y l IH]; simpl; intros Hl.
  - repeat constructor.
  - apply StronglySorted_inv in Hl as [Hl Hy].
    destruct (Z.leb_spec (score y) (score x)) as [Hle|Hgt].
    + constructor; [by constructor|]. constructor; [done|].
      eapply Forall_impl; [exact Hy|]. simpl. intros z Hz. lia.
    + constructor; [by apply IH|].
      apply List.Forall_forall. intros z Hz. apply list_elem_of_In in Hz.
      apply elem_of_insert_scored in Hz as [->|Hz]; [lia|].
      apply (proj1 (List.Forall_forall _ _) Hy). by apply list_elem_of_In.
Qed.

Lemma sort_scored_descending (l : list Scored) : descending (sort_scored l).
Proof.
  induction l as [|x l IH]; simpl; [constructor|].
  by apply insert_scored_descending.
Qed.

Lemma sortedResults_descending (q : string) (R : list DocItem) :
  descending (sortedResults q R).
Proof.
  unfold sortedResults. destruct (length R =? 0)%nat; [constructor|].
  destruct (trim_is_empty q); [constructor|]. apply sort_scored_descending.
Qed.

Lemma scoreDoc_doc (searchLower : string) (d : DocItem) (item : Scored) :
  scoreDoc searchLower d = Some item → doc item = d.
Proof. intros H. by apply scoreDoc_matches in H as [? _]. Qed.

Lemma sortedResults_scoreOf (q : string) (R : list DocItem) (item : Scored) :
  item ∈ sortedResults q R → scoreOf q (doc item) = Some (score item).
Proof.
  intros (d & _ & Hs)%elem_of_sortedResults. unfold scoreOf.
  rewrite (scoreDoc_doc _ _ _ Hs), Hs. done.
Qed.

Lemma descending_lookup (l : list Scored) (i j : nat) (a b : Scored) :
  descending l → (i < j)%nat → l !! i = Some a → l !! j = Some b →
  score b ≤ score a.
Proof.
  unfold descending. intros Hl. revert i j.
  induction Hl as [|x l Hl IH Hx]; intros i j Hij Hi Hj; [done|].
  destruct j as [|j]; [lia|]. destruct i as [|i]; simplify_eq/=.
  - apply (proj1 (List.Forall_forall _ _) Hx).
    apply list_elem_of_In. by eapply list_elem_of_lookup_2.
  - eapply (IH i j); [lia|done..].
Qed.
End RankerOrder.

(** X1. The Records of the ranked result come in descending order of
    score: of two returned Records, the one placed first has a score at
    least as high as the other's. *)
Theorem ranked_by_descending_score (q : string) (R : list DocItem) (n i j : nat)
    (d1 d2 : DocItem) :
  (i < j)%nat →
  Ranker.rank q R n !! i = Some d1 →
  Ranker.rank q R n !! j = Some d2 →
  ∃ s1 s2,
    Matching.scoreOf q d1 = Some s1 ∧ Matching.scoreOf q d2 = Some s2 ∧ s2 ≤ s1.
Proof.
  unfold Ranker.rank. intros Hij Hi Hj.
  rewrite list_lookup_fmap in Hi, Hj.
  destruct (take n (Ranker.sortedResults q R) !! i) as [a|] eqn:Ha; [|done].
  destruct (take n (Ranker.sortedResults q R) !! j) as [b|] eqn:Hb; [|done].
  simplify_eq/=.
  apply lookup_take_Some in Ha as [Ha _]. apply lookup_take_Some in Hb as [Hb _].
  exists (Ranker.score a), (Ranker.score b). split; [|split].
  - eapply sortedResults_scoreOf, list_elem_of_lookup_2, Ha.
  - eapply sortedResults_scoreOf, list_elem_of_lookup_2, Hb.
  - eapply descending_lookup; [apply sortedResults_descending|done..].
Qed.

Lemma ranked_by_descending_score_witness :
  ∃ s1 s2,
    Matching.scoreOf "fire" Samples.fireRecord = Some s1
    ∧ Matching.scoreOf "fire" MoreSamples.firedRecord = Some s2 ∧ s2 ≤ s1.
Proof.
  apply (ranked_by_descending_score "fire"
           [MoreSamples.firedRecord; Samples.fireRecord] 50 0 1).
  - lia.
  - vm_compute. reflexivity.
  - vm_compute. reflexivity.
Defined.

Section RankerMatches.
Import Ranker Matching.

Lemma scoreDoc_None (q : string) (d : DocItem) :
  scoreDoc (Js.toLowerCase q) d = None ↔ matchesQuery q d = false.
Proof.
  unfold scoreDoc, matchesQuery, contains_ci.
  destruct (Js.includes (Js.toLowerCase (title d)) _); simpl; [done|].
  destruct (Js.includes (Js.toLowerCase (description d)) _); simpl; [done|].
  destruct (existsb _ (keywords d)); simpl; [done|].
  destruct (Js.includes (Js.toLowerCase (category d)) _); simpl; [done|].
  destruct (Js.includes (Js.toLowerCase (type_string (type d))) _); simpl; done.
Qed.

(** The Records that the loop keeps are the matching ones, in order. *)
Lemma kept_docs (q : string) (R : list DocItem) :
  map doc (omap (scoreDoc (Js.toLowerCase q)) R)
  = filter (fun d => matchesQuery q d = true) R.
Proof.
  induction R as [|d R IH]; [done|].
  rewrite filter_cons. cbn [omap list_omap].
  destruct (scoreDoc (Js.toLowerCase q) d) as [item|] eqn:Hs.
  - rewrite decide_True.
    + cbn [map]. by rewrite IH, (scoreDoc_doc _ _ _ Hs).
    + destruct (matchesQuery q d) eqn:Hm; [done|].
      apply scoreDoc_None in Hm. congruence.
  - apply scoreDoc_None in Hs. rewrite decide_False by congruence. exact IH.
Qed.

Lemma sortedResults_nonblank (q : string) (R : list DocItem) :
  trim_is_empty q = false →
  sortedResults q R = sort_scored (omap (scoreDoc (Js.toLowerCase q)) R).
Proof.
  intros Hq. unfold sortedResults. rewrite Hq, results_loop.
  by destruct R.
Qed.

(** Among the elements of one score, sorting keeps the order. *)
Lemma insert_scored_stable (s : Z) (x : Scored) (l : list Scored) :
  filter (fun y => score y = s) (insert_scored x l)
  = filter (fun y => score y = s) (x :: l).
Proof.
  induction l as [|y l IH]; simpl; [done|].
  destruct (Z.leb_spec (score y) (score x)) as [Hle|Hgt]; [done|].
  rewrite (filter_cons _ y), IH, !filter_cons.
  destruct (decide (score y = s)), (decide (score x = s)); try done. lia.
Qed.

Lemma sort_scored_stable (s : Z) (l : list Scored) :
  filter (fun y => score y = s) (sort_scored l) = filter (fun y => score y = s) l.
Proof.
  induction l as [|x l IH]; simpl; [done|].
  by rewrite insert_scored_stable, !filter_cons, IH.
Qed.

Lemma filter_docs_by_score (q : string) (s : Z) (L : list Scored) :
  (∀ item, item ∈ L → scoreOf q (doc item) = Some (score item)) →
  filter (fun d => scoreOf q d = Some s) (map doc L)
  = map doc (filter (fun item => score item = s) L).
Proof.
  induction L as [|item L IH]; intros HL; [done|].
  cbn [map]. rewrite !filter_cons.
  rewrite IH by (intros; apply HL; by right).
  rewrite (HL item) by by left.
  destruct (decide (score item = s)) as [->|Hne].
  - by rewrite decide_True.
  - by rewrite decide_False by congruence.
Qed.

Lemma kept_scoreOf (q : string) (R : list DocItem) (item : Scored) :
  item ∈ omap (scoreDoc (Js.toLowerCase q)) R →
  scoreOf q (doc item) = Some (score item).
Proof.
  intros (d & _ & Hs)%list_elem_of_omap. unfold scoreOf.
  by rewrite (scoreDoc_doc _ _ _ Hs), Hs.
Qed.

Lemma filter_filter_sub {A} (P Q : A → Prop) `{∀ x, Decision (P x)}
    `{∀ x, Decision (Q x)} (l : list A) :
  (∀ x, P x → Q x) → filter P (filter Q l) = filter P l.
Proof.
  intros HPQ. induction l as [|x l IH]; [done|].
  rewrite !filter_cons. destruct (decide (Q x)) as [HQ|HQ].
  - rewrite filter_cons. by rewrite IH.
  - rewrite IH. rewrite decide_False; [done|]. intros HP. by apply HQ, HPQ.
Qed.
End RankerMatches.

(** X2. For a query that is not blank, the ranking without limit holds
    exactly the Records that match the query in one of the five fields:
    each matching Record once for each of its occurrences in the input, and
    no other Record. *)
Theorem unlimited_rank_is_the_matches (q : string) (R : list DocItem) :
  Ranker.trim_is_empty q = false →
  Ranker.rankAll q R ≡ₚ filter (fun d => Matching.matchesQuery q d = true) R.
Proof.
  intros Hq. unfold Ranker.rankAll.
  rewrite (sortedResults_nonblank q R Hq), sort_scored_perm.
  by rewrite kept_docs.
Qed.

Lemma unlimited_rank_is_the_matches_witness :
  Ranker.rankAll "fire" [MoreSamples.firedRecord; Samples.fireRecord]
  ≡ₚ filter (fun d => Matching.matchesQuery "fire" d = true)
       [MoreSamples.firedRecord; Samples.fireRecord].
Proof.
  apply (unlimited_rank_is_the_matches "fire"
           [MoreSamples.firedRecord; Samples.fireRecord]).
  reflexivity.
Defined.

(** X3. The comparator of the ranking looks at the score only, and the
    sort keeps the input order of what the comparator does not tell apart:
    Records that get the same score keep, in the ranking without limit, the
    order they have in the input. *)
Theorem equal_scores_keep_input_order (q : string) (R : list DocItem) (s : Z) :
  Ranker.trim_is_empty q = false →
  filter (fun d => Matching.scoreOf q d = Some s) (Ranker.rankAll q R)
  = filter (fun d => Matching.scoreOf q d = Some s) R.
Proof.
  intros Hq. unfold Ranker.rankAll. rewrite (sortedResults_nonblank q R Hq).
  rewrite filter_docs_by_score.
  2: { intros item Hin. apply (proj1 (elem_of_sort_scored _ _)) in Hin.
       exact (kept_scoreOf q R item Hin). }
  rewrite sort_scored_stable.
  rewrite <- (filter_docs_by_score q) by exact (kept_scoreOf q R).
  rewrite kept_docs. apply filter_filter_sub.
  intros d Hd. unfold Matching.scoreOf in Hd.
  destruct (Matching.matchesQuery q d) eqn:Hm; [done|].
  apply scoreDoc_None in Hm. by rewrite Hm in Hd.
Qed.

Lemma equal_scores_keep_input_order_witness :
  filter (fun d => Matching.scoreOf "bindable" d = Some 3981)
    (Ranker.rankAll "bindable"
       [MoreSamples.firedRecord; Samples.fireRecord; MoreSamples.eventRecord])
  = filter (fun d => Matching.scoreOf "bindable" d = Some 3981)
      [MoreSamples.firedRecord; Samples.fireRecord; MoreSamples.eventRecord].
Proof.
  apply (equal_scores_keep_input_order "bindable"
           [MoreSamples.firedRecord; Samples.fireRecord; MoreSamples.eventRecord]
           3981).
  reflexivity.
Defined.

(** The two Records of score 3981 tie: the ranking moves the Record of
    score 3982 in front of them and leaves them fired-then-event as in the
    input, and event-then-fired when the input has them so. *)
Lemma tied_records_stay_in_input_order :
  map (Matching.scoreOf "bindable")
    [MoreSamples.firedRecord; Samples.fireRecord; MoreSamples.eventRecord]
  = [Some 3981; Some 3982; Some 3981]
  ∧ Ranker.rankAll "bindable"
      [MoreSamples.firedRecord; Samples.fireRecord; MoreSamples.eventRecord]
    = [Samples.fireRecord; MoreSamples.firedRecord; MoreSamples.eventRecord]
  ∧ Ranker.rankAll "bindable"
      [MoreSamples.eventRecord; Samples.fireRecord; MoreSamples.firedRecord]
    = [Samples.fireRecord; MoreSamples.eventRecord; MoreSamples.firedRecord].
Proof. by vm_compute. Qed.

Section RankerCase.
Import Ranker Matching.

Lemma lower_char_idem (c : ascii) : Js.lower_char (Js.lower_char c) = Js.lower_char c.
Proof. by destruct c as [[] [] [] [] [] [] [] []]. Qed.

Lemma toLowerCase_idem (s : string) :
  Js.toLowerCase (Js.toLowerCase s) = Js.toLowerCase s.
Proof.
  unfold Js.toLowerCase. rewrite map_chars_compose.
  apply map_chars_ext, lower_char_idem.
Qed.

Lemma is_space_lower (c : ascii) : Ascii.is_space (Js.lower_char c) = Ascii.is_space c.
Proof. by destruct c as [[] [] [] [] [] [] [] []]. Qed.

Lemma trim_is_empty_lower (s : string) :
  trim_is_empty (Js.toLowerCase s) = trim_is_empty s.
Proof.
  unfold trim_is_empty, Js.toLowerCase.
  induction s as [|c s IH]; simpl; [done|]. by rewrite is_space_lower, IH.
Qed.

Lemma length_map_chars (f : ascii → ascii) (s : string) :
  String.length (Js.map_chars f s) = String.length s.
Proof. induction s as [|c s IH]; simpl; by rewrite ?IH. Qed.

Lemma startsWith_length (s p : string) :
  Js.startsWith s p = true → (String.length p ≤ String.length s)%nat.
Proof.
  revert s. induction p as [|a p IH]; intros [|b s]; simpl; try done; try lia.
  intros [_ H]%andb_prop. apply IH in H. lia.
Qed.

Lemma includes_length (s t : string) :
  Js.includes s t = true → (String.length t ≤ String.length s)%nat.
Proof.
  induction s as [|b s IH]; intros H.
  - apply (startsWith_length "" t). cbn [Js.includes] in H.
    by rewrite orb_false_r in H.
  - cbn [Js.includes] in H. apply orb_prop in H as [H|H].
    + apply (startsWith_length (String b s) t H).
    + apply IH in H. simpl. lia.
Qed.

Lemma startsWith_refl (s : string) : Js.startsWith s s = true.
Proof. induction s as [|c s IH]; simpl; [done|]. by rewrite Ascii.eqb_refl. Qed.

Lemma includes_refl (s : string) : Js.includes s s = true.
Proof. destruct s; simpl; [done|]. by rewrite Ascii.eqb_refl, startsWith_refl. Qed.

(** The score of a Record whose title contains the query. *)
Lemma scoreDoc_title_match (searchLower : string) (d : DocItem) :
  Js.includes (Js.toLowerCase (title d)) searchLower = true →
  scoreDoc searchLower d
  = Some {| doc := d;
            score := titleMatchScore searchLower (Js.toLowerCase (title d))
                     * titleWeight d
                     - Z.of_nat (String.length (title d)) |}.
Proof.
  intros Ht. unfold scoreDoc, titleWeight. rewrite Ht. simpl.
  by destruct (String.eqb (category d) "Classes").
Qed.
End RankerCase.

(** X4. The letter case of the query does not matter: the query and its
    lower-case form are ranked alike. *)
Theorem rank_ignores_query_case (q : string) (R : list DocItem) (n : nat) :
  Ranker.rank (Js.toLowerCase q) R n = Ranker.rank q R n.
Proof.
  unfold Ranker.rank, Ranker.sortedResults.
  by rewrite trim_is_empty_lower, toLowerCase_idem.
Qed.

(** X5. A Record whose title is the query, letter case ignored, is scored
    above every Record of the same weight (same category and same type)
    whose title contains the query without being an exact match. *)
Theorem exact_title_outranks_partial (q : string) (d1 d2 : DocItem) :
  Js.toLowerCase (title d1) = Js.toLowerCase q →
  Js.includes (Js.toLowerCase (title d2)) (Js.toLowerCase q) = true →
  Ranker.titleMatchScore (Js.toLowerCase q) (Js.toLowerCase (title d2)) ≠ 1000 →
  category d1 = category d2 →
  type d1 = type d2 →
  ∃ s1 s2,
    Matching.scoreOf q d1 = Some s1 ∧ Matching.scoreOf q d2 = Some s2 ∧ s2 < s1.
Proof.
  intros Hexact Hpart Htier Hcat Htype. unfold Matching.scoreOf.
  rewrite (scoreDoc_title_match _ d2 Hpart).
  rewrite (scoreDoc_title_match _ d1) by (rewrite Hexact; apply includes_refl).
  eexists _, _. split; [done|]. split; [done|]. simpl.
  assert (Matching.titleWeight d1 = Matching.titleWeight d2) as ->
    by (unfold Matching.titleWeight; by rewrite Hcat, Htype).
  assert (1 ≤ Matching.titleWeight d2) as Hweight.
  { unfold Matching.titleWeight.
    destruct (String.eqb (category d2) "Classes"); [|lia].
    destruct (_ || _); lia. }
  assert (Ranker.titleMatchScore (Js.toLowerCase q) (Js.toLowerCase (title d1)) = 1000)
    as ->.
  { unfold Ranker.titleMatchScore. by rewrite Hexact, String.eqb_refl. }
  assert (Ranker.titleMatchScore (Js.toLowerCase q) (Js.toLowerCase (title d2)) ≤ 500)
    as Hscore2.
  { revert Htier. unfold Ranker.titleMatchScore.
    destruct (_ || _); [done|]. destruct (Js.startsWith _ _); lia. }
  apply includes_length in Hpart.
  unfold Js.toLowerCase in Hpart, Hexact.
  apply (f_equal String.length) in Hexact.
  rewrite !length_map_chars in *. nia.
Qed.

Lemma exact_title_outranks_partial_witness :
  ∃ s1 s2,
    Matching.scoreOf "bindableevent:fire" Samples.fireRecord = Some s1
    ∧ Matching.scoreOf "bindableevent:fire" MoreSamples.fireAllRecord = Some s2
    ∧ s2 < s1.
Proof.
  apply (exact_title_outranks_partial "bindableevent:fire"
           Samples.fireRecord MoreSamples.fireAllRecord).
  - vm_compute. reflexivity.
  - vm_compute. reflexivity.
  - vm_compute. discriminate.
  - reflexivity.
  - reflexivity.
Defined.

(** ** More on the extractor *)

Section StringFacts.
Import Ranker.

Lemma all_chars_app (p : ascii → bool) (s t : string) :
  all_chars p (s +:+ t) = all_chars p s && all_chars p t.
Proof. induction s as [|c s IH]; simpl; [done|]. by rewrite IH, andb_assoc. Qed.

Lemma all_chars_rev_app (p : ascii → bool) (s acc : string) :
  all_chars p (String.rev_app s acc) = all_chars p s && all_chars p acc.
Proof.
  revert acc. induction s as [|c s IH]; intros acc; simpl; [done|].
  rewrite IH. simpl. destruct (p c), (all_chars p s); simpl; done.
Qed.

Lemma all_chars_rev (p : ascii → bool) (s : string) :
  all_chars p (String.rev s) = all_chars p s.
Proof. unfold String.rev. by rewrite all_chars_rev_app, andb_true_r. Qed.

Lemma all_chars_map (p : ascii → bool) (f : ascii → ascii) (s : string) :
  (∀ c, p (f c) = true) → all_chars p (Js.map_chars f s) = true.
Proof. intros Hf. induction s as [|c s IH]; simpl; [done|]. by rewrite Hf, IH. Qed.

Lemma all_chars_take (p : ascii → bool) (n : nat) (s : string) :
  all_chars p s = true → all_chars p (Js.take n s) = true.
Proof.
  revert s. induction n as [|n IH]; intros [|c s]; simpl; try done.
  intros [Hc Hs]%andb_prop. by rewrite Hc, IH.
Qed.

(** The segments of a split are made of characters of the string. *)
Lemma split_go_chars (p sep : ascii → bool) (cur s segment : string) :
  all_chars p cur = true → all_chars p s = true →
  segment ∈ Js.split_go sep cur s → all_chars p segment = true.
Proof.
  revert cur. induction s as [|c s IH]; intros cur Hcur Hs; simpl.
  - intros ->%list_elem_of_singleton. by rewrite all_chars_rev.
  - simpl in Hs. apply andb_prop in Hs as [Hc Hs]. destruct (sep c).
    + intros [->|Hin]%elem_of_cons; [by rewrite all_chars_rev|].
      by apply (IH ""%string).
    + apply IH; [|done]. simpl. by rewrite Hc, Hcur.
Qed.

Lemma split_runs_go_chars (p sep : ascii → bool) (in_run : bool)
    (cur s segment : string) :
  all_chars p cur = true → all_chars p s = true →
  segment ∈ Js.split_runs_go sep in_run cur s → all_chars p segment = true.
Proof.
  revert in_run cur. induction s as [|c s IH]; intros in_run cur Hcur Hs; simpl.
  - intros ->%list_elem_of_singleton. by rewrite all_chars_rev.
  - simpl in Hs. apply andb_prop in Hs as [Hc Hs]. destruct (sep c).
    + destruct in_run; [by apply IH|].
      intros [->|Hin]%elem_of_cons; [by rewrite all_chars_rev|].
      by apply (IH true ""%string).
    + apply IH; [|done]. simpl. by rewrite Hc, Hcur.
Qed.

(** No segment of a split holds a separator. *)
Lemma split_go_no_sep (sep : ascii → bool) (cur s segment : string) :
  all_chars (fun c => negb (sep c)) cur = true →
  segment ∈ Js.split_go sep cur s →
  all_chars (fun c => negb (sep c)) segment = true.
Proof.
  revert cur. induction s as [|c s IH]; intros cur Hcur; simpl.
  - intros ->%list_elem_of_singleton. by rewrite all_chars_rev.
  - destruct (sep c) eqn:Hc.
    + intros [->|Hin]%elem_of_cons; [by rewrite all_chars_rev|].
      by apply (IH ""%string).
    + apply IH. simpl. by rewrite Hc, Hcur.
Qed.

Lemma lower_char_not_upper (c : ascii) : Js.is_upper (Js.lower_char c) = false.
Proof. by destruct c as [[] [] [] [] [] [] [] []]. Qed.

Lemma toLowerCase_not_upper (s : string) :
  all_chars (fun c => negb (Js.is_upper c)) (Js.toLowerCase s) = true.
Proof. apply all_chars_map. intros c. by rewrite lower_char_not_upper. Qed.

Lemma not_upper_toLowerCase (s : string) :
  all_chars (fun c => negb (Js.is_upper c)) s = true → Js.toLowerCase s = s.
Proof.
  induction s as [|c s IH]; simpl; [done|].
  intros [Hc Hs]%andb_prop. unfold Js.toLowerCase in *. simpl.
  rewrite IH by done. unfold Js.lower_char.
  by destruct (Js.is_upper c).
Qed.
End StringFacts.

Section KeywordFacts.
Import Ranker Shape.

Lemma add_long_ok (keywords : list string) (word : string) :
  all_chars (fun c => negb (Js.is_upper c)) word = true →
  NoDup keywords ∧ Forall keyword_ok keywords →
  NoDup (add_long keywords word) ∧ Forall keyword_ok (add_long keywords word).
Proof.
  intros Hword [Hnodup Hall]. unfold add_long, set_add, push.
  destruct (Nat.ltb_spec 2 (String.length word)) as [Hlong|Hshort]; [|done].
  destruct (bool_decide_reflect (word ∈ keywords)) as [Hin|Hnotin]; [done|].
  split.
  - apply NoDup_app. split; [done|]. split; [|apply NoDup_singleton].
    intros x Hx ->%list_elem_of_singleton. done.
  - apply Forall_app. split; [done|]. by repeat constructor.
Qed.

Lemma add_long_loop_ok (words keywords : list string) :
  (∀ word, word ∈ words → all_chars (fun c => negb (Js.is_upper c)) word = true) →
  NoDup keywords ∧ Forall keyword_ok keywords →
  NoDup (fold_left add_long words keywords)
  ∧ Forall keyword_ok (fold_left add_long words keywords).
Proof.
  revert keywords. induction words as [|word words IH]; intros keywords Hwords Hok;
    simpl; [done|].
  apply IH.
  - intros w Hw. apply Hwords. by right.
  - apply add_long_ok; [|done]. apply Hwords. by left.
Qed.
End KeywordFacts.

(** X6. The keywords of a Record are at most 10, pairwise distinct, each
    longer than two characters and in lower case. *)
Theorem keywords_bounded_distinct_lowercase (title description path : string) :
  (length (generateKeywords title description path) ≤ 10)%nat
  ∧ NoDup (generateKeywords title description path)
  ∧ ∀ k, k ∈ generateKeywords title description path →
      (2 < String.length k)%nat ∧ Js.toLowerCase k = k.
Proof.
  unfold generateKeywords.
  set (non_word := fun c => negb (Js.is_word c)).
  assert (NoDup (fold_left add_long (Js.split (Js.is_char "/") (Js.toLowerCase path))
                   (fold_left add_long
                      (Js.split_runs non_word (Js.toLowerCase description))
                      (fold_left add_long
                         (Js.split_runs non_word (Js.toLowerCase title)) [])))
          ∧ Forall Shape.keyword_ok
              (fold_left add_long (Js.split (Js.is_char "/") (Js.toLowerCase path))
                 (fold_left add_long
                    (Js.split_runs non_word (Js.toLowerCase description))
                    (fold_left add_long
                       (Js.split_runs non_word (Js.toLowerCase title)) [])))) as [Hnodup Hall].
  { apply add_long_loop_ok.
    { intros w Hw.
      apply (split_go_chars _ (Js.is_char "/") "" (Js.toLowerCase path) w);
        [done|apply toLowerCase_not_upper|exact Hw]. }
    apply add_long_loop_ok.
    { intros w Hw.
      apply (split_runs_go_chars _ non_word false "" (Js.toLowerCase description) w);
        [done|apply toLowerCase_not_upper|exact Hw]. }
    apply add_long_loop_ok.
    { intros w Hw.
      apply (split_runs_go_chars _ non_word false "" (Js.toLowerCase title) w);
        [done|apply toLowerCase_not_upper|exact Hw]. }
    split; constructor. }
  split; [|split].
  - rewrite length_take. lia.
  - eapply sublist_NoDup; [|apply sublist_take]. done.
  - intros k Hk. apply elem_of_take in Hk as (i & Hk%list_elem_of_lookup_2 & _).
    destruct (proj1 (Forall_forall _ _) Hall k Hk) as [Hlen Hlower].
    split; [done|]. by apply not_upper_toLowerCase.
Qed.

Section CapFacts.
Import Extraction.

Lemma length_keptItems (data : YAMLDocData) (key : string) :
  (length (keptItems data key) ≤ 50)%nat.
Proof.
  unfold keptItems. destruct (y_members data !! key) as [keyData|]; simpl; [|lia].
  etrans; [apply length_filter|]. rewrite length_take. lia.
Qed.

Lemma filter_subitems_of_key (data : YAMLDocData) (key k : string)
    (items : list YamlItem) :
  filter (fun subitem => s_type subitem = key) (map (subitemOf data k) items)
  = if decide (k = key) then map (subitemOf data k) items else [].
Proof.
  induction items as [|item items IH]; simpl; [by destruct (decide _)|].
  rewrite filter_cons, IH. simpl. by destruct (decide (k = key)).
Qed.

Lemma filter_key_absent (data : YAMLDocData) (key : string) (keys : list string) :
  key ∉ keys →
  filter (fun subitem => s_type subitem = key)
    (keys ≫= fun k => map (subitemOf data k) (keptItems data k)) = [].
Proof.
  induction keys as [|k keys IH]; intros Hkey; [done|].
  apply not_elem_of_cons in Hkey as [Hne Hkey]. cbn [mbind list_bind].
  rewrite filter_app, filter_subitems_of_key, IH by done.
  by rewrite decide_False by congruence.
Qed.

Lemma filter_key_capped (data : YAMLDocData) (key : string) (keys : list string) :
  NoDup keys →
  (length (filter (fun subitem => s_type subitem = key)
             (keys ≫= fun k => map (subitemOf data k) (keptItems data k))) ≤ 50)%nat.
Proof.
  induction 1 as [|k keys Hk Hkeys IH]; [simpl; lia|].
  cbn [mbind list_bind]. rewrite filter_app, filter_subitems_of_key.
  destruct (decide (k = key)) as [->|Hne].
  - rewrite filter_key_absent by done. rewrite app_nil_r, length_map.
    apply length_keptItems.
  - exact IH.
Qed.

Lemma length_subitems_capped (data : YAMLDocData) (keys : list string) :
  (length (keys ≫= fun k => map (subitemOf data k) (keptItems data k))
   ≤ 50 * length keys)%nat.
Proof.
  induction keys as [|k keys IH]; [simpl; lia|].
  cbn [mbind list_bind]. rewrite List.length_app, length_map.
  pose proof (length_keptItems data k). simpl length. lia.
Qed.

Lemma length_omap_le {A B} (f : A → option B) (l : list A) :
  (length (omap f l) ≤ length l)%nat.
Proof.
  induction l as [|x l IH]; [done|]. cbn [omap list_omap].
  destruct (f x); simpl; lia.
Qed.
End CapFacts.

(** X7. A definition document gives at most 50 sub-entries for each
    category key, whatever the number it lists, and so at most 301 Records:
    its own and 50 for each of the six keys. *)
Theorem definition_document_output_capped (filePath url : string)
    (data : YAMLDocData) (meta : FileMetadata) :
  parseYamlFile filePath url (YamlDoc data) = Some meta →
  (∀ key,
     length (filter (fun subitem => s_type subitem = key)
               (default [] (m_subitems meta))) ≤ 50)%nat
  ∧ (length (Extraction.recordsOf meta) ≤ 301)%nat.
Proof.
  intros (_ & _ & _ & Hsubs)%parseYamlFile_subitems. rewrite Hsubs. split.
  - intros key. apply filter_key_capped.
    apply (bool_decide_unpack _). by vm_compute.
  - rewrite recordsOf_eq, Hsubs. destruct (metadataToDocItem meta); simpl; [|lia].
    etrans; [apply le_n_S, length_omap_le|].
    pose proof (length_subitems_capped data ENGINE_REF_ITEMS) as Hle.
    simpl in Hle. simpl. lia.
Qed.

Lemma definition_document_output_capped_witness :
  ∃ meta,
    parseYamlFile Samples.partPath Samples.partUrl (YamlDoc Samples.partDoc) = Some meta
    ∧ (length (Extraction.recordsOf meta) ≤ 301)%nat.
Proof.
  eexists. split; [vm_compute; reflexivity|].
  refine (proj2 (definition_document_output_capped Samples.partPath Samples.partUrl
                   Samples.partDoc _ _)).
  vm_compute. reflexivity.
Defined.

Section ShapeFacts.
Import Extraction Shape Ranker.

Lemma normalise_id_chars (s : string) : all_chars is_id_char (normalise s) = true.
Proof.
  unfold normalise. apply all_chars_map.
  intros c. by destruct c as [[] [] [] [] [] [] [] []].
Qed.

Lemma sourceKey_id_chars (src : Source) : all_chars is_id_char (sourceKey src) = true.
Proof.
  destruct src as [path|path title]; simpl; [apply normalise_id_chars|].
  by rewrite !all_chars_app, !normalise_id_chars.
Qed.

Lemma getCategoryFromPath_closed (path : string) :
  getCategoryFromPath path ∈ CATEGORIES.
Proof.
  unfold getCategoryFromPath, CATEGORIES.
  repeat (destruct (Js.includes path _); [set_solver|]). set_solver.
Qed.

Lemma startsWith_app (s t : string) : Js.startsWith (s +:+ t) s = true.
Proof.
  induction s as [|c s IH]; [by destruct t|].
  change (String c s +:+ t) with (String c (s +:+ t)). simpl.
  by rewrite Ascii.eqb_refl.
Qed.

Lemma startsWith_app_app (s t u : string) :
  Js.startsWith ((s +:+ t) +:+ u) s = true.
Proof.
  induction s as [|c s IH]; [by destruct (("" +:+ t) +:+ u)|].
  change ((String c s +:+ t) +:+ u) with (String c ((s +:+ t) +:+ u)). simpl.
  by rewrite Ascii.eqb_refl.
Qed.

Lemma string_app_assoc (s t u : string) : (s +:+ t) +:+ u = s +:+ (t +:+ u).
Proof.
  induction s as [|c s IH]; [done|].
  change ((String c s +:+ t) +:+ u) with (String c ((s +:+ t) +:+ u)).
  by rewrite IH.
Qed.

Lemma or_else_nonempty (o : option string) (d : string) :
  d ≠ "" → Js.or_else o d ≠ "".
Proof.
  intros Hd. unfold Js.or_else. destruct o as [s|]; [|done].
  by destruct (String.eqb_spec s "").
Qed.

(** What the Record of a sub-entry takes from the file's metadata. *)
Lemma subitemToDocItem_shared (subitem : SubitemData) (meta : FileMetadata)
    (r : DocItem) :
  subitemToDocItem subitem meta = Some r →
  category r = getCategoryFromPath (m_path meta)
  ∧ (∃ anchor, anchor ≠ "" ∧ url r = pathToUrl (m_path meta) +:+ "#" +:+ anchor)
  ∧ id r = generateIdFromPath (m_path meta) +:+ "-" +:+ normalise (s_title subitem)
  ∧ type r = default TReference (SUBITEM_TYPE_MAP !! s_type subitem).
Proof.
  unfold subitemToDocItem.
  destruct (String.eqb_spec (s_title subitem) "") as [|Htitle]; [done|].
  intros [= <-]. cbn [category url id type]. split; [done|]. split.
  - eexists. split; [|reflexivity].
    destruct (Js.includes (s_title subitem) ":"); [by apply or_else_nonempty|].
    destruct (Js.includes (s_title subitem) "."); [by apply or_else_nonempty|done].
  - by rewrite lower_then_replace.
Qed.

Lemma metadataToDocItem_shared (meta : FileMetadata) (r : DocItem) :
  metadataToDocItem meta = Some r →
  category r = getCategoryFromPath (m_path meta)
  ∧ url r = pathToUrl (m_path meta)
  ∧ id r = generateIdFromPath (m_path meta)
  ∧ type r = getTypeFromMetadata meta.
Proof.
  unfold metadataToDocItem. destruct (m_title meta) as [t|]; [|done].
  destruct (String.eqb t ""); [done|]. by intros [= <-].
Qed.

Lemma elem_of_processFiles (files : list ZipObject) (r : DocItem) :
  r ∈ processFiles files →
  ∃ file meta,
    file ∈ files ∧ isRelevant file = true ∧ processFile file = Some meta
    ∧ r ∈ recordsOf meta.
Proof.
  rewrite processFiles_eq. intros (meta & Hr & Hmeta)%list_elem_of_bind.
  apply list_elem_of_omap in Hmeta as (file & Hfile & Hmeta).
  apply list_elem_of_filter in Hfile as [Hrel Hfile]. eauto 6.
Qed.

Lemma elem_of_recordsOf (meta : FileMetadata) (r : DocItem) :
  r ∈ recordsOf meta →
  metadataToDocItem meta = Some r
  ∨ ∃ subitem, subitem ∈ default [] (m_subitems meta)
               ∧ subitemToDocItem subitem meta = Some r.
Proof.
  rewrite recordsOf_eq. destruct (metadataToDocItem meta) as [parent|];
    [|by rewrite elem_of_nil].
  intros [->|Hin]%elem_of_cons; [by left|right].
  by apply list_elem_of_omap in Hin.
Qed.
End ShapeFacts.

(** X8. Every id of the Records of an archive is made of lower-case
    letters, digits and dashes only. *)
Theorem ids_are_slugs (files : list ZipObject) (r : DocItem) :
  r ∈ processFiles files →
  Ranker.all_chars Shape.is_id_char (id r) = true.
Proof.
  intros Hr. assert (In (id r) (map id (processFiles files))) as Hid.
  { apply in_map. by apply list_elem_of_In. }
  rewrite (archive_ids files) in Hid.
  apply in_map_iff in Hid as (src & <- & _). apply sourceKey_id_chars.
Qed.

Lemma ids_are_slugs_witness :
  ∃ r, title r = "Anchored" ∧ Ranker.all_chars Shape.is_id_char (id r) = true.
Proof.
  eexists. split; [|apply (ids_are_slugs Samples.partFiles)].
  2: { vm_compute. apply list_elem_of_further, list_elem_of_here. }
  reflexivity.
Defined.

(** X9. Every Record of an archive has one of the twelve categories, and
    its url is under the documentation site. *)
Theorem records_have_known_category_and_site_url (files : list ZipObject)
    (r : DocItem) :
  r ∈ processFiles files →
  category r ∈ Shape.CATEGORIES
  ∧ Js.startsWith (url r) "https://create.roblox.com/docs/" = true.
Proof.
  intros (file & meta & _ & _ & _ & Hr)%elem_of_processFiles.
  apply elem_of_recordsOf in Hr as [Hr|(subitem & _ & Hr)].
  - apply metadataToDocItem_shared in Hr as (-> & -> & _).
    split; [apply getCategoryFromPath_closed|]. apply startsWith_app.
  - apply subitemToDocItem_shared in Hr as (-> & (anchor & _ & ->) & _).
    split; [apply getCategoryFromPath_closed|].
    unfold pathToUrl. apply startsWith_app_app.
Qed.

Lemma records_have_known_category_and_site_url_witness :
  ∃ r, title r = "Anchored"
       ∧ category r ∈ Shape.CATEGORIES
       ∧ Js.startsWith (url r) "https://create.roblox.com/docs/" = true.
Proof.
  eexists. split; [|apply (records_have_known_category_and_site_url Samples.partFiles)].
  2: { vm_compute. apply list_elem_of_further, list_elem_of_here. }
  reflexivity.
Defined.

(** X10. In a definition document, the Record of a sub-entry shares the
    category of the document's own Record, its url is the document's url
    followed by [#] and a non-empty anchor, its id is the document's id
    followed by a dash and more, and its type is a member type or
    [reference], never the document's kind. *)
Theorem subentry_record_follows_parent (filePath url : string) (data : YAMLDocData)
    (meta : FileMetadata) (parent r : DocItem) :
  parseYamlFile filePath url (YamlDoc data) = Some meta →
  metadataToDocItem meta = Some parent →
  r ∈ Extraction.recordsOf meta →
  r = parent
  ∨ (category r = category parent
     ∧ (∃ anchor, anchor ≠ "" ∧ DataFetcher.url r = DataFetcher.url parent +:+ "#" +:+ anchor)
     ∧ Js.startsWith (id r) (id parent +:+ "-") = true
     ∧ type r ∈ Shape.MEMBER_TYPES).
Proof.
  intros Hparse Hparent Hr.
  destruct (yaml_record_origin _ _ _ _ _ Hparse Hr)
    as [Hp|(key & item & Hkey & _ & Hsub)]; [left; congruence|right].
  apply metadataToDocItem_shared in Hparent as (-> & -> & -> & _).
  apply subitemToDocItem_shared in Hsub as (-> & Hurl & -> & ->).
  split; [done|]. split; [done|]. split.
  - rewrite <- string_app_assoc. apply startsWith_app.
  - cbn [subitemOf s_type]. unfold ENGINE_REF_ITEMS in Hkey.
    repeat (apply elem_of_cons in Hkey as [->|Hkey];
            [vm_compute;
             repeat first [apply list_elem_of_here | apply list_elem_of_further]|]).
    by apply elem_of_nil in Hkey.
Qed.

Lemma subentry_record_follows_parent_witness :
  ∃ meta parent r,
    title r = "Anchored"
    ∧ metadataToDocItem meta = Some parent
    ∧ (r = parent
       ∨ (category r = category parent
          ∧ (∃ anchor, anchor ≠ ""
                       ∧ DataFetcher.url r = DataFetcher.url parent +:+ "#" +:+ anchor)
          ∧ Js.startsWith (id r) (id parent +:+ "-") = true
          ∧ type r ∈ Shape.MEMBER_TYPES)).
Proof.
  eassert (parseYamlFile Samples.partPath Samples.partUrl (YamlDoc Samples.partDoc)
           = Some _) as Hparse by (vm_compute; reflexivity).
  match type of Hparse with
  | _ = Some ?meta =>
      eassert (metadataToDocItem meta = Some _) as Hparent
        by (vm_compute; reflexivity);
      eassert (_ ∈ Extraction.recordsOf meta) as Hr
        by (vm_compute; apply list_elem_of_further, list_elem_of_here)
  end.
  eexists _, _, _. split; [|split; [exact Hparent|]].
  2: exact (subentry_record_follows_parent _ _ _ _ _ _ Hparse Hparent Hr).
  reflexivity.
Defined.

(** X11. For a prose document whose text can be read, [parseMarkdownFile]
    always answers metadata, whatever the header block: of type [article],
    with the path from [content/en-us/] on and no sub-entries. When the
    header block is absent, does not parse or is empty, the title is
    derived from the file name and there is no description; when it parses
    to a document, the title is the header's title, or the one derived from
    the file name if that is missing or empty, and the description is the
    header's description cut by [truncateDescription]. Such metadata
    accounts for at most one Record, and a Record made from it has type
    tutorial, reference or guide. *)
Theorem prose_document_degrades_to_path_record (file : ZipObject) (content : FileText) :
  Js.endsWith (relativePath file) ".md" = true →
  async_text file = Some content →
  ∃ meta,
    processFile file = Some meta
    ∧ m_type meta = "article"
    ∧ m_path meta
      = Js.substring_from (Js.indexOf (relativePath file) "content/en-us/")
          (relativePath file)
    ∧ m_subitems meta = None
    ∧ (length (Extraction.recordsOf meta) ≤ 1)%nat
    ∧ (∀ r, r ∈ Extraction.recordsOf meta → type r ∈ Shape.PROSE_TYPES)
    ∧ (frontmatter content = None ∨ frontmatter content = Some YamlThrows
       ∨ frontmatter content = Some YamlEmpty →
       m_title meta = Some (extractTitleFromPath (relativePath file))
       ∧ m_description meta = None)
    ∧ (∀ fm, frontmatter content = Some (YamlDoc fm) →
       m_title meta
       = Some (Js.or_else (fm_title fm) (extractTitleFromPath (relativePath file)))
       ∧ m_description meta = Some (truncateDescription (fm_description fm))).
Proof.
  intros Hmd Htext. unfold processFile. rewrite Htext, Hmd.
  assert (∀ meta, m_type meta = "article" → m_subitems meta = None →
            (length (Extraction.recordsOf meta) ≤ 1)%nat
            ∧ ∀ r, r ∈ Extraction.recordsOf meta → type r ∈ Shape.PROSE_TYPES)
    as Harticle.
  { intros meta Htype Hsubs. rewrite recordsOf_eq, Hsubs.
    destruct (metadataToDocItem meta) as [d|] eqn:Hd; simpl;
      [|split; [lia|by intros r ?%elem_of_nil]].
    split; [lia|]. intros r ->%list_elem_of_singleton.
    apply metadataToDocItem_shared in Hd as (_ & _ & _ & ->).
    unfold getTypeFromMetadata. rewrite Htype. simpl.
    unfold Shape.PROSE_TYPES.
    destruct (Js.includes _ "/tutorials/"); [set_solver|].
    destruct (Js.includes _ "/reference/"); set_solver. }
  unfold parseMarkdownFile.
  destruct (frontmatter content) as [[| |fm]|] eqn:Hfm; eexists;
    (split; [done|]); (split; [done|]); (split; [done|]); (split; [done|]);
    (split; [by apply Harticle|]); (split; [by apply Harticle|]);
    (split; [|intros fm' Hfm'; by simplify_eq]); try done.
  intros [?|[?|?]]; done.
Qed.

Lemma prose_document_degrades_to_path_record_witness :
  ∃ meta,
    processFile {| relativePath := "creator-docs-main/content/en-us/ui/text-input.md";
                   dir := false; async_text := Some Samples.proseText |} = Some meta
    ∧ m_type meta = "article"
    ∧ m_path meta
      = Js.substring_from
          (Js.indexOf "creator-docs-main/content/en-us/ui/text-input.md" "content/en-us/")
          "creator-docs-main/content/en-us/ui/text-input.md"
    ∧ m_subitems meta = None
    ∧ (length (Extraction.recordsOf meta) ≤ 1)%nat
    ∧ (∀ r, r ∈ Extraction.recordsOf meta → type r ∈ Shape.PROSE_TYPES)
    ∧ (frontmatter Samples.proseText = None
       ∨ frontmatter Samples.proseText = Some YamlThrows
       ∨ frontmatter Samples.proseText = Some YamlEmpty →
       m_title meta
       = Some (extractTitleFromPath "creator-docs-main/content/en-us/ui/text-input.md")
       ∧ m_description meta = None)
    ∧ (∀ fm, frontmatter Samples.proseText = Some (YamlDoc fm) →
       m_title meta
       = Some (Js.or_else (fm_title fm)
                 (extractTitleFromPath "creator-docs-main/content/en-us/ui/text-input.md"))
       ∧ m_description meta = Some (truncateDescription (fm_description fm))).
Proof.
  apply (prose_document_degrades_to_path_record
           {| relativePath := "creator-docs-main/content/en-us/ui/text-input.md";
              dir := false; async_text := Some Samples.proseText |}
           Samples.proseText); reflexivity.
Defined.

Section ArchiveComposition.
Import Extraction.

Lemma metadataOf_app (files1 files2 : list ZipObject) :
  metadataOf (files1 ++ files2) = metadataOf files1 ++ metadataOf files2.
Proof. unfold metadataOf. by rewrite filter_app, omap_app. Qed.
End ArchiveComposition.

(** X12. The Records of an archive are those of its files, file after
    file in the order of the archive: processing two lists of files one
    after the other gives the Records of the first followed by those of the
    second, wherever the boundaries of the batches of 25 fall. *)
Theorem archive_records_concatenate (files1 files2 : list ZipObject) :
  processFiles (files1 ++ files2) = processFiles files1 ++ processFiles files2.
Proof. by rewrite !processFiles_eq, metadataOf_app, bind_app. Qed.

(** X13. A file that is skipped (a directory, a path outside
    [content/en-us/], another extension) or that gives no metadata (its
    text cannot be read, its definition does not parse or has no name)
    contributes no Record and leaves the Records of the other files as they
    are. *)
Theorem failing_file_is_isolated (before after : list ZipObject) (file : ZipObject) :
  isRelevant file = false ∨ processFile file = None →
  processFiles (before ++ file :: after) = processFiles (before ++ after).
Proof.
  intros Hfile. rewrite !processFiles_eq, !metadataOf_app, !bind_app.
  f_equal. unfold Extraction.metadataOf. rewrite filter_cons.
  destruct (decide (isRelevant file = true)) as [Hrel|Hrel]; [|done].
  destruct Hfile as [Hfile|Hfile]; [congruence|].
  cbn [omap list_omap]. by rewrite Hfile.
Qed.

Lemma failing_file_is_isolated_witness :
  processFiles (Samples.partFiles
                ++ {| relativePath := "creator-docs-main/content/en-us/broken.yaml";
                      dir := false; async_text := None |}
                   :: Samples.textInputFiles)
  = processFiles (Samples.partFiles ++ Samples.textInputFiles).
Proof.
  apply (failing_file_is_isolated Samples.partFiles Samples.textInputFiles).
  right. reflexivity.
Defined.

Section TruncationFacts.
Import Ranker.

Lemma string_take_all (n : nat) (s : string) :
  (String.length s ≤ n)%nat → Js.take n s = s.
Proof.
  revert s. induction n as [|n IH]; intros [|c s]; simpl; try done; try lia.
  intros Hlen. rewrite IH; [done|lia].
Qed.

Lemma string_length_take (n : nat) (s : string) :
  (n ≤ String.length s)%nat → String.length (Js.take n s) = n.
Proof.
  revert s. induction n as [|n IH]; intros [|c s]; simpl; try done; try lia.
  intros Hlen. rewrite IH; [done|lia].
Qed.

Lemma string_take_app_left (n : nat) (s t : string) :
  (n ≤ String.length s)%nat → Js.take n (s +:+ t) = Js.take n s.
Proof.
  revert s. induction n as [|n IH]; intros [|c s]; simpl; try done; try lia.
  intros Hlen. change (String c s +:+ t) with (String c (s +:+ t)). simpl.
  rewrite IH; [done|lia].
Qed.

Lemma string_take_take (n : nat) (s : string) : Js.take n (Js.take n s) = Js.take n s.
Proof.
  revert s. induction n as [|n IH]; intros [|c s]; simpl; try done.
  by rewrite IH.
Qed.

Lemma all_chars_map_impl (p q : ascii → bool) (f : ascii → ascii) (s : string) :
  (∀ c, p c = true → q (f c) = true) →
  all_chars p s = true → all_chars q (Js.map_chars f s) = true.
Proof.
  intros Hf. induction s as [|c s IH]; simpl; [done|].
  intros [Hc Hs]%andb_prop. by rewrite (Hf c Hc), IH.
Qed.

Lemma all_chars_strip_extension (p : ascii → bool) (s : string) :
  all_chars p s = true → all_chars p (Js.strip_extension s) = true.
Proof.
  intros Hs. unfold Js.strip_extension, Js.strip_suffix.
  destruct (Js.endsWith s ".md"); [by apply all_chars_take|].
  destruct (Js.endsWith s ".yaml"); [by apply all_chars_take|done].
Qed.

Lemma pop_elem_of (xs : list string) (x : string) : Js.pop xs = Some x → x ∈ xs.
Proof.
  unfold Js.pop. intros Hlast. apply last_Some in Hlast as [l ->].
  apply elem_of_app. right. by left.
Qed.
End TruncationFacts.

(** X14. [truncateDescription] keeps the first 200 characters of the
    description; a description of at most 200 characters keeps its length
    (it is returned as it is), and a longer one always comes out with 203
    characters, so a description of 201 or 202 characters grows. *)
Theorem truncateDescription_keeps_first_200 (d : string) :
  Js.take 200 (truncateDescription (Some d)) = Js.take 200 d
  ∧ String.length (truncateDescription (Some d))
    = (if (String.length d <=? 200)%nat then String.length d else 203%nat)
  ∧ ((String.length d ≤ 200)%nat → truncateDescription (Some d) = d).
Proof.
  unfold truncateDescription.
  destruct (String.eqb_spec d "") as [->|Hd]; [done|]. cbv zeta.
  destruct (Nat.ltb_spec 200 (String.length d)) as [Hlong|Hshort].
  - rewrite string_take_app_left by (rewrite string_length_take; lia).
    rewrite string_take_take, length_app, string_length_take by lia.
    destruct (Nat.leb_spec (String.length d) 200); [lia|].
    split; [done|]. split; [done|lia].
  - destruct (Nat.leb_spec (String.length d) 200); [done|lia].
Qed.

(** X15. The title derived from a file path holds no slash, no dash and
    no underscore: it is the file name with dashes and underscores turned
    into spaces. *)
Theorem extractTitleFromPath_has_no_path_punctuation (filePath : string) :
  Ranker.all_chars (fun c => negb (Shape.is_path_punctuation c))
    (extractTitleFromPath filePath) = true.
Proof.
  unfold extractTitleFromPath.
  set (fileName := Js.or_else _ "").
  assert (Ranker.all_chars (fun c => negb (Js.is_char "/" c)) fileName = true)
    as Hname.
  { unfold fileName, Js.or_else.
    destruct (Js.pop _) as [x|] eqn:Hpop; [|done].
    destruct (String.eqb x ""); [done|].
    apply pop_elem_of in Hpop.
    by apply (split_go_no_sep (Js.is_char "/") "" filePath x). }
  unfold Js.replace_class.
  apply (all_chars_map_impl (fun c => negb (Js.is_char "/" c))).
  - intros c Hc. unfold Shape.is_path_punctuation, Js.is_char in *.
    destruct c as [[] [] [] [] [] [] [] []]; try done.
  - by apply all_chars_strip_extension.
Qed.

(** ** More on the cache and the refresh *)

Section RefreshFacts.

Ltac run :=
  unfold mbind, Async_bind, bind, try_catch, cache_get, cache_set, cache_remove,
    Date_now, JSON_parse, read, update, ret, throw in *;
  cbn [fst snd] in *.

(** What the version check answers: the sha of the reply, [None] on any
    failure. *)
Lemma getLatestCommitSha_eq (w : World) :
  getLatestCommitSha w
  = (Returned match commits_main w with Ok data_sha => data_sha | _ => None end, w).
Proof.
  unfold getLatestCommitSha. run. by destruct (commits_main w).
Qed.


(** A refresh whose download fails. *)
Lemma fetchFreshData_transport (w : World) :
  (archive_main w = Aborted ∨ ∃ statusText, archive_main w = NotOk statusText) →
  fetchFreshData w = (Returned [], w).
Proof.
  intros Harchive. unfold fetchFreshData.
  unfold mbind at 1, Async_bind at 1, bind at 1. rewrite getLatestCommitSha_eq.
  unfold processZipArchiveOptimized. run.
  by destruct Harchive as [->|[statusText ->]].
Qed.

Lemma checkForUpdatesInBackground_eq (cachedSha : option string) (w : World) :
  checkForUpdatesInBackground cachedSha w
  = (Returned tt,
     if match cache w !! lastUpdateCheckKey with
        | Some text =>
            nonempty text &&
            match parseInt text with
            | Some lastCheck => now w - lastCheck <? updateCheckInterval
            | None => false
            end
        | None => false
        end
     then w
     else set_background (fun started => started ++ [cachedSha])
            (set_cache (insert lastUpdateCheckKey (Decimal (now w))) w)).
Proof.
  unfold checkForUpdatesInBackground. run.
  by destruct (match cache w !! lastUpdateCheckKey with Some _ => _ | None => _ end).
Qed.
End RefreshFacts.



(** X17. A download that fails (the request is aborted, or the status is
    not a success) gives the empty Record list without throwing and leaves
    the whole world, the cache included, as it was. *)
Theorem transport_failure_gives_empty_and_keeps_cache (w : World) :
  (archive_main w = Aborted ∨ ∃ statusText, archive_main w = NotOk statusText) →
  fetchFreshData w = (Returned [], w).
Proof. apply fetchFreshData_transport. Qed.

Lemma transport_failure_gives_empty_and_keeps_cache_witness :
  fetchFreshData MoreSamples.offline = (Returned [], MoreSamples.offline).
Proof.
  apply (transport_failure_gives_empty_and_keeps_cache MoreSamples.offline).
  left. reflexivity.
Defined.

(** X18. The expiry is at 24 hours and inclusive: an entry of the cache is
    read back exactly when it is at most 86400000 ms old, and reads as
    [null] exactly when it is older. *)
Theorem entry_served_iff_at_most_24h_old (w : World) (entry : CacheEntry) :
  cache w !! cacheKey = Some (Serialized entry) →
  (fst (getCachedData w) = Returned (Some (JEntry entry))
   ↔ now w - timestamp entry ≤ 86400000)
  ∧ (fst (getCachedData w) = Returned None
     ↔ 86400000 < now w - timestamp entry).
Proof.
  intros Hcache.
  destruct (Z.le_gt_cases (now w - timestamp entry) 86400000) as [Hfresh|Hold].
  - rewrite (getCachedData_fresh w entry Hcache) by (unfold cacheExpiry; lia).
    simpl. split; split; try done; lia.
  - rewrite (getCachedData_expired w entry Hcache) by (unfold cacheExpiry; lia).
    simpl. split; split; try done; lia.
Qed.

Lemma entry_served_iff_at_most_24h_old_witness :
  (fst (getCachedData MoreSamples.exactlyOneDayOld)
   = Returned (Some (JEntry MoreSamples.dayOldEntry))
   ↔ now MoreSamples.exactlyOneDayOld - timestamp MoreSamples.dayOldEntry ≤ 86400000)
  ∧ (fst (getCachedData MoreSamples.exactlyOneDayOld) = Returned None
     ↔ 86400000 < now MoreSamples.exactlyOneDayOld - timestamp MoreSamples.dayOldEntry).
Proof.
  apply (entry_served_iff_at_most_24h_old MoreSamples.exactlyOneDayOld
           MoreSamples.dayOldEntry).
  vm_compute. reflexivity.
Defined.

(** X19. Without a usable entry (the slot is empty, its text does not
    parse, or the entry has expired) [fetchDocsData] is the blocking
    refresh: same result, same world, and so no failure and no detached
    update check. *)
Theorem no_usable_entry_means_refresh (w : World) :
  (cache w !! cacheKey = None
   ∨ (∃ text, cache w !! cacheKey = Some (Corrupt text))
   ∨ (∃ entry, cache w !! cacheKey = Some (Serialized entry)
               ∧ cacheExpiry < now w - timestamp entry)) →
  fetchDocsData w = fetchFreshData w.
Proof.
  intros Hcache. unfold fetchDocsData.
  unfold mbind at 1, Async_bind at 1, bind at 1.
  destruct Hcache as [Hnone|[[text Htext]|(entry & Hentry & Hold)]].
  - by rewrite (getCachedData_absent w Hnone).
  - by rewrite (getCachedData_corrupt w text Htext).
  - by rewrite (getCachedData_expired w entry Hentry Hold).
Qed.

Lemma no_usable_entry_means_refresh_witness :
  fetchDocsData MoreSamples.corruptCache = fetchFreshData MoreSamples.corruptCache.
Proof.
  apply (no_usable_entry_means_refresh MoreSamples.corruptCache).
  right. left. eexists. vm_compute. reflexivity.
Defined.

(** X20. The update check throttles itself: right after a call of
    [checkForUpdatesInBackground], a second call at the same time starts
    nothing and changes nothing, whatever the first call did. *)
Theorem update_check_twice_is_once (sha1 sha2 : option string) (w : World) :
  checkForUpdatesInBackground sha2 (snd (checkForUpdatesInBackground sha1 w))
  = (Returned tt, snd (checkForUpdatesInBackground sha1 w)).
Proof.
  rewrite (checkForUpdatesInBackground_eq sha1 w). cbn [snd].
  destruct (match cache w !! lastUpdateCheckKey with Some _ => _ | None => _ end)
    eqn:Hthrottled.
  - rewrite checkForUpdatesInBackground_eq. by rewrite Hthrottled.
  - rewrite checkForUpdatesInBackground_eq. simpl.
    rewrite lookup_insert_eq. simpl. by rewrite Z.sub_diag.
Qed.

(** X21. With the time of the last check recorded, a new check is started
    only when at least one hour (3600000 ms) has passed: before that the
    call changes nothing; from then on it records the present time, starts
    one detached check with the cached sha, and leaves the Cache Entry
    alone. *)
Theorem update_check_throttled_for_one_hour (cachedSha : option string) (w : World)
    (lastCheck : Z) :
  cache w !! lastUpdateCheckKey = Some (Decimal lastCheck) →
  (now w - lastCheck < 3600000 →
   checkForUpdatesInBackground cachedSha w = (Returned tt, w))
  ∧ (3600000 ≤ now w - lastCheck →
     fst (checkForUpdatesInBackground cachedSha w) = Returned tt
     ∧ background (snd (checkForUpdatesInBackground cachedSha w))
       = background w ++ [cachedSha]
     ∧ cache (snd (checkForUpdatesInBackground cachedSha w)) !! lastUpdateCheckKey
       = Some (Decimal (now w))
     ∧ cache (snd (checkForUpdatesInBackground cachedSha w)) !! cacheKey
       = cache w !! cacheKey).
Proof.
  intros Hlast. rewrite checkForUpdatesInBackground_eq, Hlast. simpl.
  unfold updateCheckInterval.
  destruct (Z.ltb_spec (now w - lastCheck) (60 * 60 * 1000)) as [Hrecent|Hold].
  - split; [done|lia].
  - split; [lia|]. intros _. simpl. rewrite lookup_insert_eq.
    by rewrite lookup_insert_ne.
Qed.

Lemma update_check_throttled_for_one_hour_witness :
  checkForUpdatesInBackground (Some "4f2a9c1") MoreSamples.checkedRecently
  = (Returned tt, MoreSamples.checkedRecently).
Proof.
  refine (proj1 (update_check_throttled_for_one_hour (Some "4f2a9c1")
                   MoreSamples.checkedRecently (1700000000000 - 600000) _) _).
  - vm_compute. reflexivity.
  - vm_compute. reflexivity.
Defined.

(** X22. A usable entry with Records is served as it is: [fetchDocsData]
    returns the cached Records without throwing, leaves the Cache Entry
    untouched whatever the remote sha is, and starts at most one detached
    update check. *)
Theorem usable_entry_is_served_untouched (w : World) (entry : CacheEntry) :
  cache w !! cacheKey = Some (Serialized entry) →
  now w - timestamp entry ≤ cacheExpiry →
  data entry ≠ [] →
  fst (fetchDocsData w) = Returned (data entry)
  ∧ cache (snd (fetchDocsData w)) !! cacheKey = Some (Serialized entry)
  ∧ (background (snd (fetchDocsData w)) = background w
     ∨ background (snd (fetchDocsData w)) = background w ++ [sha entry]).
Proof.
  intros Hcache Hfresh Hdata.
  assert (fetchDocsData w
          = bind (checkForUpdatesInBackground (sha entry))
              (fun _ => ret (data entry)) w) as ->.
  { unfold fetchDocsData. unfold mbind at 1, Async_bind at 1, bind at 1.
    rewrite (getCachedData_fresh w entry Hcache Hfresh).
    by destruct (data entry). }
  unfold bind. rewrite checkForUpdatesInBackground_eq. unfold ret.
  destruct (match cache w !! lastUpdateCheckKey with Some _ => _ | None => _ end);
    simpl; [by auto|].
  rewrite lookup_insert_ne by done. by auto.
Qed.

Lemma usable_entry_is_served_untouched_witness :
  fst (fetchDocsData Samples.brokenDownload)
  = Returned (data (Samples.recentEntry (processFiles Samples.partFiles)))
  ∧ cache (snd (fetchDocsData Samples.brokenDownload)) !! cacheKey
    = Some (Serialized (Samples.recentEntry (processFiles Samples.partFiles)))
  ∧ (background (snd (fetchDocsData Samples.brokenDownload))
     = background Samples.brokenDownload
     ∨ background (snd (fetchDocsData Samples.brokenDownload))
       = background Samples.brokenDownload
         ++ [sha (Samples.recentEntry (processFiles Samples.partFiles))]).
Proof.
  apply (usable_entry_is_served_untouched Samples.brokenDownload
           (Samples.recentEntry (processFiles Samples.partFiles))).
  - vm_compute. reflexivity.
  - vm_compute. discriminate.
  - vm_compute. discriminate.
Defined.

(** ** The command *)

(** X23. Clearing the cache empties the Cache Entry only: the next cache
    read gives [null] whatever was stored, and the time of the last update
    check stays, so the cleared cache does not re-open the throttle. *)
Theorem clearCache_removes_only_the_entry (w : World) :
  fst (getCachedData (snd (clearCache w))) = Returned None
  ∧ cache (snd (clearCache w)) !! lastUpdateCheckKey = cache w !! lastUpdateCheckKey
  ∧ background (snd (clearCache w)) = background w.
Proof.
  unfold clearCache, cache_remove, update. cbn [snd].
  split; [|split; [|done]].
  - rewrite getCachedData_absent; [done|]. simpl. apply lookup_delete_eq.
  - simpl. by rewrite lookup_delete_ne.
Qed.

(** X24. "Clear Cache & Refresh" always fetches anew: whatever the cache
    held, the Records shown afterwards are those the blocking refresh
    returns on the cleared cache, the loading flag is down, the toasts are
    clearing, loading and loaded with the number of Records, and no
    detached update check is started. *)
Theorem clear_and_refresh_always_refetches (v : Command.View) (w : World) :
  ∃ docs w',
    fetchFreshData (snd (clearCache w)) = (Returned docs, w')
    ∧ Command.clearCacheAndRefresh v w
      = ({| Command.allDocs := docs;
            Command.isLoading := false;
            Command.toasts :=
              Command.toasts v
              ++ [Command.ClearingCache; Command.LoadingDocs;
                  Command.DocsLoaded (length docs)] |}, w')
    ∧ background w' = background w.
Proof.
  destruct (fetchFreshData_total (snd (clearCache w)))
    as (docs & w' & Hfresh & Hworld).
  exists docs, w'. split; [done|].
  assert (fetchDocsData (snd (clearCache w)) = (Returned docs, w')) as Hdocs.
  { rewrite <- Hfresh. unfold fetchDocsData.
    unfold mbind at 1, Async_bind at 1, bind at 1.
    rewrite getCachedData_absent; [done|]. simpl. apply lookup_delete_eq. }
  split.
  - unfold Command.clearCacheAndRefresh. 
    change (clearCache w) with (Returned tt, snd (clearCache w)).
    cbv iota beta. unfold Command.loadDocsData. rewrite Hdocs.
    unfold Command.showToast, Command.setAllDocs, Command.setIsLoading, push; simpl.
    by rewrite <- !app_assoc.
  - by destruct Hworld as [->|[stored ->]].
Qed.

(** X25. Loading never leaves the command in the loading state, and its
    last toast tells what happened: either the Records shown are those that
    [fetchDocsData] returned and the toast gives their number, or
    [fetchDocsData] threw, the Records shown are unchanged and the toast
    reports the failure. *)
Theorem loading_ends_and_reports (v : Command.View) (w : World) :
  Command.isLoading (fst (Command.loadDocsData v w)) = false
  ∧ ((∃ docs,
        fst (fetchDocsData w) = Returned docs
        ∧ Command.allDocs (fst (Command.loadDocsData v w)) = docs
        ∧ last (Command.toasts (fst (Command.loadDocsData v w)))
          = Some (Command.DocsLoaded (length docs)))
     ∨ (∃ e,
          fst (fetchDocsData w) = Thrown e
          ∧ Command.allDocs (fst (Command.loadDocsData v w)) = Command.allDocs v
          ∧ last (Command.toasts (fst (Command.loadDocsData v w)))
            = Some Command.FailedToLoad)).
Proof.
  unfold Command.loadDocsData.
  destruct (fetchDocsData w) as [[docs|e] w']; simpl.
  - split; [done|]. left. exists docs. unfold push. by rewrite !last_snoc.
  - split; [done|]. right. exists e. unfold push. by rewrite !last_snoc.
Qed.

(** X26. The shortening of the list view, which the first component
    applies to the title and to the cleaned description and the second
    component to the description only (its title is shown whole): a text of
    at most 50 characters is left as it is; a longer one becomes its first
    47 characters followed by three dots, 50 characters in all; so the
    result never exceeds 50 characters and always starts as the text
    does. *)
Theorem displayText_fits_50 (text : string) :
  ((String.length text ≤ 50)%nat → Command.displayText text = text)
  ∧ ((50 < String.length text)%nat →
     Command.displayText text = Js.take 47 text +:+ "..."
     ∧ String.length (Command.displayText text) = 50%nat
     ∧ Command.displayText text ≠ text)
  ∧ (String.length (Command.displayText text) ≤ 50)%nat
  ∧ Js.take 47 (Command.displayText text) = Js.take 47 text
  ∧ String.length (Command.displayText text)
    = (if (String.length text <=? 50)%nat then String.length text else 50%nat).
Proof.
  unfold Command.displayText. cbv zeta.
  destruct (Nat.ltb_spec 50 (String.length text)) as [Hlong|Hshort].
  - change (50 - 3)%nat with 47%nat.
    assert (String.length (Js.take 47 text +:+ "...") = 50%nat) as Hlen
      by (rewrite length_app, string_length_take by lia; simpl; lia).
    split; [lia|]. split.
    { intros _. split; [done|]. split; [done|].
      intros Heq. rewrite Heq in Hlen. lia. }
    rewrite Hlen.
    rewrite string_take_app_left by (rewrite string_length_take; lia).
    rewrite string_take_take by lia.
    destruct (Nat.leb_spec (String.length text) 50); [lia|].
    split; [lia|]. split; [done|]. done.
  - destruct (Nat.leb_spec (String.length text) 50); [|lia].
    split; [done|]. split; [lia|]. done.
Qed.

Section IconFacts.
Import Shape.

(** The types that have no icon of their own. *)
Lemma plain_type_spec (t : DocType) :
  match t with
  | TClass | TService | TTutorial | TGuide | TReference => true
  | _ => false
  end = true
  ↔ t ∈ [TClass; TService; TTutorial; TGuide; TReference].
Proof.
  destruct t; split; intros Ht; try done;
    try (solve [repeat first [apply list_elem_of_here | apply list_elem_of_further]]);
    repeat (apply elem_of_cons in Ht as [Ht|Ht]; [discriminate Ht|]);
    by apply elem_of_nil in Ht.
Qed.

Lemma icon_table (t : DocType) (c : string) :
  c ∈ CATEGORIES →
  String.eqb (Command.getIconForCategory c t) Command.DEFAULT_ICON
  = String.eqb c "Documentation"
    && match t with
       | TClass | TService | TTutorial | TGuide | TReference => true
       | _ => false
       end.
Proof.
  unfold CATEGORIES. intros Hc.
  repeat (apply elem_of_cons in Hc as [->|Hc]; [destruct t; vm_compute; reflexivity|]).
  by apply elem_of_nil in Hc.
Qed.
End IconFacts.

(** X27. For the Records of an archive, the icon is the default one
    exactly for a Record of category [Documentation] whose type has no icon
    of its own (class, service, tutorial, guide, reference); every other
    Record gets the icon of its type or of its category. *)
Theorem default_icon_only_for_uncategorised (files : list ZipObject) (r : DocItem) :
  r ∈ processFiles files →
  (Command.getIconForCategory (category r) (type r) = Command.DEFAULT_ICON
   ↔ category r = "Documentation"
     ∧ type r ∈ [TClass; TService; TTutorial; TGuide; TReference]).
Proof.
  intros Hr.
  assert (category r ∈ Shape.CATEGORIES) as Hcat.
  { apply elem_of_processFiles in Hr as (file & meta & _ & _ & _ & Hr).
    apply elem_of_recordsOf in Hr as [Hr|(subitem & _ & Hr)].
    - apply metadataToDocItem_shared in Hr as (-> & _).
      apply getCategoryFromPath_closed.
    - apply subitemToDocItem_shared in Hr as (-> & _).
      apply getCategoryFromPath_closed. }
  pose proof (icon_table (type r) (category r) Hcat) as Htable.
  rewrite <- plain_type_spec.
  destruct (String.eqb_spec (Command.getIconForCategory (category r) (type r))
              Command.DEFAULT_ICON) as [Hicon|Hicon];
    symmetry in Htable.
  - apply andb_prop in Htable as [Hc%String.eqb_eq Ht]. by split.
  - split; [done|]. intros [Hc Ht]. rewrite Hc, Ht in Htable. done.
Qed.

Lemma default_icon_only_for_uncategorised_witness :
  ∃ r, title r = "Anchored"
       ∧ (Command.getIconForCategory (category r) (type r) = Command.DEFAULT_ICON
          ↔ category r = "Documentation"
            ∧ type r ∈ [TClass; TService; TTutorial; TGuide; TReference]).
Proof.
  eexists. split; [|apply (default_icon_only_for_uncategorised Samples.partFiles)].
  2: { vm_compute. apply list_elem_of_further, list_elem_of_here. }
  reflexivity.
Defined.

(** ** Interplay of the cap and of the tiers *)

Section CapBeforeFilter.
Import Extraction.

Lemma filter_key_no_kept (data : YAMLDocData) (key : string) (keys : list string) :
  keptItems data key = [] →
  filter (fun subitem => s_type subitem = key)
    (keys ≫= fun k => map (subitemOf data k) (keptItems data k)) = [].
Proof.
  intros Hkept. induction keys as [|k keys IH]; [done|].
  cbn [mbind list_bind]. rewrite filter_app, filter_subitems_of_key, IH.
  destruct (decide (k = key)) as [->|]; [by rewrite Hkept|done].
Qed.

Lemma filter_all_dropped {A} (P : A → Prop) `{∀ x, Decision (P x)} (l : list A) :
  (∀ x, x ∈ l → ¬ P x) → filter P l = [].
Proof.
  induction l as [|x l IH]; intros Hl; [done|].
  rewrite filter_cons, decide_False by (apply Hl; by left).
  apply IH. intros y Hy. apply Hl. by right.
Qed.
End CapBeforeFilter.

(** X28. The cap of 50 is applied before the deprecated sub-entries are
    dropped: when the first 50 sub-entries of a category are all
    deprecated, the category gives no sub-entry at all, whatever follows
    them in the document. *)
Theorem cap_counts_deprecated_subentries (filePath url key : string)
    (data : YAMLDocData) (meta : FileMetadata) :
  parseYamlFile filePath url (YamlDoc data) = Some meta →
  (∀ item, item ∈ take 50 (Extraction.allItems data key) → isDeprecated item = true) →
  filter (fun subitem => s_type subitem = key) (default [] (m_subitems meta)) = [].
Proof.
  intros (_ & _ & _ & ->)%parseYamlFile_subitems Hdeprecated. cbn [default].
  apply filter_key_no_kept. unfold Extraction.keptItems, Extraction.allItems in *.
  destruct (y_members data !! key) as [keyData|]; [|done]. simpl in Hdeprecated.
  apply filter_all_dropped. intros item Hin Hkeep.
  rewrite (Hdeprecated item Hin) in Hkeep. done.
Qed.

Lemma cap_counts_deprecated_subentries_witness :
  ∃ meta,
    parseYamlFile Samples.partPath Samples.partUrl (YamlDoc MoreSamples.legacyDoc)
    = Some meta
    ∧ length (Extraction.allItems MoreSamples.legacyDoc "methods") = 51%nat
    ∧ filter (fun subitem => s_type subitem = "methods") (default [] (m_subitems meta))
      = [].
Proof.
  eexists. split; [vm_compute; reflexivity|]. split; [vm_compute; reflexivity|].
  refine (cap_counts_deprecated_subentries Samples.partPath Samples.partUrl "methods"
            MoreSamples.legacyDoc _ _ _).
  - vm_compute. reflexivity.
  - intros item Hin.
    assert (take 50 (Extraction.allItems MoreSamples.legacyDoc "methods")
            = replicate 50 MoreSamples.legacyMethod) as Htake
      by (vm_compute; reflexivity).
    rewrite Htake in Hin. apply elem_of_replicate in Hin as [-> _]. reflexivity.
Defined.

Section FallbackScore.
Import Ranker Matching.

(** The score of a Record kept for another field than its title. *)
Lemma scoreDoc_fallback_bound (searchLower : string) (d : DocItem) (item : Scored) :
  Js.includes (Js.toLowerCase (title d)) searchLower = false →
  scoreDoc searchLower d = Some item →
  50 ≤ score item ≤ 100 * (if String.eqb (category d) "Classes" then 8 else 1).
Proof.
  intros Ht. unfold scoreDoc. rewrite Ht. simpl.
  destruct (negb _ && _ && _ && _); [done|]. intros [= <-]. simpl.
  destruct (Js.includes (Js.toLowerCase (description d)) searchLower);
    [|destruct (existsb _ _)];
    destruct (String.eqb (category d) "Classes"); lia.
Qed.
End FallbackScore.

(** X29. Within one category, a Record whose title contains the query and
    has fewer than 150 characters is scored above every Record that matches
    only in another field. *)
Theorem short_title_match_outranks_fallback_match (q : string) (d1 d2 : DocItem)
    (s2 : Z) :
  Js.includes (Js.toLowerCase (title d1)) (Js.toLowerCase q) = true →
  (String.length (title d1) < 150)%nat →
  Js.includes (Js.toLowerCase (title d2)) (Js.toLowerCase q) = false →
  Matching.scoreOf q d2 = Some s2 →
  category d1 = category d2 →
  ∃ s1, Matching.scoreOf q d1 = Some s1 ∧ s2 < s1.
Proof.
  intros Ht1 Hshort Ht2 Hs2 Hcat. unfold Matching.scoreOf in *.
  rewrite (scoreDoc_title_match _ d1 Ht1). eexists. split; [done|]. simpl.
  destruct (Ranker.scoreDoc (Js.toLowerCase q) d2) as [item|] eqn:Hd2; [|done].
  simpl in Hs2. injection Hs2 as <-.
  apply (scoreDoc_fallback_bound _ _ _ Ht2) in Hd2. rewrite <- Hcat in Hd2.
  assert (250 ≤ Ranker.titleMatchScore (Js.toLowerCase q) (Js.toLowerCase (title d1)))
    as Htier.
  { unfold Ranker.titleMatchScore. destruct (_ || _); [lia|].
    destruct (Js.startsWith _ _); lia. }
  unfold Matching.titleWeight.
  destruct (String.eqb (category d1) "Classes"); [destruct (_ || _)|]; nia.
Qed.

Lemma short_title_match_outranks_fallback_match_witness :
  ∃ s1, Matching.scoreOf "fired" MoreSamples.firedRecord = Some s1 ∧ 800 < s1.
Proof.
  apply (short_title_match_outranks_fallback_match "fired"
           MoreSamples.firedRecord MoreSamples.eventRecord 800).
  - vm_compute. reflexivity.
  - vm_compute. lia.
  - vm_compute. reflexivity.
  - vm_compute. reflexivity.
  - reflexivity.
Defined.
